(** * FreeRTOS kernel port for wizC / PIC18: [portable/WizC/PIC18/port.c]

    A shallow embedding of the port layer and the properties of its
    specification.  Integers of the C program are [Z] with the wrap-around
    of their width written out; task stack memory is a finite map from slot
    addresses to bytes; calls into the rest of the kernel (scheduler hooks,
    heap allocator, context restore) are hooks of an explicit environment. *)

From Stdlib Require Import ZArith Lia List Bool.
From stdpp Require Import base gmap list.

Open Scope Z_scope.

(** ** Machine integers *)

Definition uint8 (x : Z) : Z := x mod 256.
Definition uint16 (x : Z) : Z := x mod 65536.

(** The two bytes of a 16-bit quantity, as the specification speaks of them. *)
Definition high_byte (x : Z) : Z := (x / 256) mod 256.
Definition low_byte (x : Z) : Z := x mod 256.

(** ** Build-time tier: [#if _ROMSIZE > 0x8000] *)

Definition large_rom (ROMSIZE : Z) : bool := 0x8000 <? ROMSIZE.

Definition portSTACK_FSR_BYTES (ROMSIZE : Z) : Z :=
  if large_rom ROMSIZE then 15 else 13.
Definition portSTACK_CALLRETURN_ENTRY_SIZE (ROMSIZE : Z) : Z :=
  if large_rom ROMSIZE then 3 else 2.
Definition portSTACK_MINIMAL_CALLRETURN_DEPTH : Z := 10.
Definition portSTACK_OTHER_BYTES : Z := 20.

(** Modelled from the spec: the macro [portNO_CRITICAL_SECTION_NESTING] is
    declared in portmacro.h, which is outside port.c.  The specification
    calls it the "not nested" value to which the scheduler clears the
    counter for the first task, and the comment above its use in
    [pxPortInitialiseStack] says the saved counter "is initially set to
    zero". *)
Definition portNO_CRITICAL_SECTION_NESTING : Z := 0.

(** Modelled from the spec: [StackType_t] is declared in portmacro.h, which
    is outside port.c; the specification describes the task stack as
    byte-addressable with one-byte slots, so the cast keeps the low eight
    bits. *)
Definition StackType_t (x : Z) : Z := uint8 x.

(** ** Task stack memory *)

(** Names of the slots of an initial frame.  The register names are the ones
    the comments of [pxPortInitialiseStack] give to each store. *)
Inductive slot : Set :=
  | ParamHigh | ParamLow
  | STATUS | WREG | BSR | PRODH | PRODL | FSR0H | FSR0L | FSR1H | FSR1L
  | TABLAT | TBLPTRU | TBLPTRH | TBLPTRL | PCLATU | PCLATH
  | Scratch
  | TOSU | TOSH | TOSL
  | ReturnDepth
  | CriticalNesting.

#[global] Instance slot_eq_dec : EqDecision slot.
Proof. solve_decision. Defined.

(** One store through the stack pointer: where, which slot, what value. *)
Record store : Set := Store { st_addr : Z; st_slot : slot; st_val : Z }.

#[global] Instance store_eq_dec : EqDecision store.
Proof. solve_decision. Defined.

(** The state [pxPortInitialiseStack] works on: its local pointer, the data
    memory it writes through that pointer, and (as a record for the proofs
    only) the stores it has made, in program order. *)
Record stack : Type := Stack {
  pxTopOfStack : Z;
  ram : gmap Z Z;
  stores : list store
}.

Definition M (A : Type) : Type := stack -> A * stack.

#[global] Instance M_ret : MRet M := fun A (a : A) st => (a, st).
#[global] Instance M_bind : MBind M := fun A B (k : A -> M B) (c : M A) st =>
  let (a, st') := c st in k a st'.

(** [*pxTopOfStack-- = ( StackType_t ) v;] *)
Definition push (s : slot) (v : Z) : M unit := fun st =>
  (tt, {| pxTopOfStack := pxTopOfStack st - 1;
          ram := <[pxTopOfStack st := StackType_t v]> (ram st);
          stores := stores st ++ [Store (pxTopOfStack st) s (StackType_t v)] |}).

(** [return pxTopOfStack;] *)
Definition return_pxTopOfStack : M Z := fun st => (pxTopOfStack st, st).

(** A store that is compiled only under [#if _ROMSIZE > 0x8000]. *)
Definition if_large_rom (ROMSIZE : Z) (c : M unit) : M unit :=
  if large_rom ROMSIZE then c else mret tt.

(** [while( ucScratch-- > 0 ) { *pxTopOfStack-- = ( StackType_t ) 0; }] :
    the body runs once per unit of [ucScratch]. *)
Fixpoint scratch_loop (ucScratch : nat) : M unit :=
  match ucScratch with
  | O => mret tt
  | S n => push Scratch 0 ;; scratch_loop n
  end.

(** [pxPortInitialiseStack].  [scratch] is the link-time constant
    [OVERHEADPAGE0-LOCOPTSIZE+MAXLOCOPTSIZE]; [movlw] loads its low eight
    bits, which reach the [uint8_t] local [ucScratch] through [PRODL]. *)
Definition pxPortInitialiseStack (ROMSIZE scratch : Z)
    (pxCode pvParameters : Z) : M Z :=
  let ucScratch := uint8 scratch in
  push ParamHigh (Z.land (Z.shiftr (uint16 pvParameters) 8) 0x00ff) ;;
  push ParamLow (Z.land (uint16 pvParameters) 0x00ff) ;;
  push STATUS 0x11 ;;
  push WREG 0x22 ;;
  push BSR 0x33 ;;
  push PRODH 0x44 ;;
  push PRODL 0x55 ;;
  push FSR0H 0x66 ;;
  push FSR0L 0x77 ;;
  push FSR1H 0x88 ;;
  push FSR1L 0x99 ;;
  push TABLAT 0xAA ;;
  if_large_rom ROMSIZE (push TBLPTRU 0x00) ;;
  push TBLPTRH 0xCC ;;
  push TBLPTRL 0xDD ;;
  if_large_rom ROMSIZE (push PCLATU 0xEE) ;;
  push PCLATH 0xFF ;;
  scratch_loop (Z.to_nat ucScratch) ;;
  if_large_rom ROMSIZE (push TOSU 0) ;;
  push TOSH (Z.land (Z.shiftr (uint16 pxCode) 8) 0x00ff) ;;
  push TOSL (Z.land (uint16 pxCode) 0x00ff) ;;
  push ReturnDepth 1 ;;
  push CriticalNesting portNO_CRITICAL_SECTION_NESTING ;;
  return_pxTopOfStack.

(** Calling the function with [pxTopOfStack] pointing into memory [m]. *)
Definition call_pxPortInitialiseStack (ROMSIZE scratch : Z)
    (top pxCode pvParameters : Z) (m : gmap Z Z) : Z * stack :=
  pxPortInitialiseStack ROMSIZE scratch pxCode pvParameters (Stack top m []).

(** *** The frame as a list of slots

    The frame the comments of [pxPortInitialiseStack] describe, first-pushed
    slot first; it is compared with the code in [pxPortInitialiseStack_lay]. *)

Definition register_block (ROMSIZE : Z) : list (slot * Z) :=
  [(STATUS, 0x11); (WREG, 0x22); (BSR, 0x33); (PRODH, 0x44); (PRODL, 0x55);
   (FSR0H, 0x66); (FSR0L, 0x77); (FSR1H, 0x88); (FSR1L, 0x99); (TABLAT, 0xAA)]
  ++ (if large_rom ROMSIZE then [(TBLPTRU, 0)] else [])
  ++ [(TBLPTRH, 0xCC); (TBLPTRL, 0xDD)]
  ++ (if large_rom ROMSIZE then [(PCLATU, 0xEE)] else [])
  ++ [(PCLATH, 0xFF)].

Definition return_record (ROMSIZE pxCode : Z) : list (slot * Z) :=
  (if large_rom ROMSIZE then [(TOSU, 0)] else [])
  ++ [(TOSH, high_byte pxCode); (TOSL, low_byte pxCode)].

Definition frame_image (ROMSIZE ucScratch pxCode pvParameters : Z)
    : list (slot * Z) :=
  [(ParamHigh, high_byte pvParameters); (ParamLow, low_byte pvParameters)]
  ++ register_block ROMSIZE
  ++ replicate (Z.to_nat ucScratch) (Scratch, 0)
  ++ return_record ROMSIZE pxCode
  ++ [(ReturnDepth, 1); (CriticalNesting, portNO_CRITICAL_SECTION_NESTING)].

(** Storing one byte, then a list of bytes, downwards from the pointer. *)
Definition put (st : stack) (sv : slot * Z) : stack :=
  {| pxTopOfStack := pxTopOfStack st - 1;
     ram := <[pxTopOfStack st := sv.2]> (ram st);
     stores := stores st ++ [Store (pxTopOfStack st) sv.1 sv.2] |}.

Definition lay (l : list (slot * Z)) (st : stack) : stack := foldl put st l.

(** The stores that laying down [l] from [top] makes, with their
    addresses. *)
Definition laid (top : Z) (l : list (slot * Z)) : list store :=
  imap (fun i sv => Store (top - Z.of_nat i) sv.1 sv.2) l.

(** The frame up to, and without, the two bytes of the entry address. *)
Definition frame_front (ROMSIZE ucScratch pvParameters : Z) : list (slot * Z) :=
  [(ParamHigh, high_byte pvParameters); (ParamLow, low_byte pvParameters)]
  ++ register_block ROMSIZE
  ++ replicate (Z.to_nat ucScratch) (Scratch, 0)
  ++ (if large_rom ROMSIZE then [(TOSU, 0)] else []).

(** Slots of the register-save block. *)
Definition is_register (s : slot) : bool :=
  match s with
  | STATUS | WREG | BSR | PRODH | PRODL | FSR0H | FSR0L | FSR1H | FSR1L
  | TABLAT | TBLPTRU | TBLPTRH | TBLPTRL | PCLATU | PCLATH => true
  | _ => false
  end.

(** The register placeholders: the slots of the block that are not one of
    the extra high bytes written as zero. *)
Definition is_placeholder (s : slot) : bool :=
  is_register s && negb (bool_decide (s = TBLPTRU)).

(** [a] is stored before [b]: in the sequence of slots stored to, every
    store to [a] comes earlier than every store to [b]. *)
Definition pushed_before (a b : slot) (l : list slot) : Prop :=
  forall i j, l !! i = Some a -> l !! j = Some b -> (i < j)%nat.

(** The order of the specification's frame algorithm (its steps 2 to 4):
    the two extra high bytes of the large tier come after the register
    placeholders and before the scratch padding. *)
Definition extra_bytes_between_block_and_scratch (l : list slot) : Prop :=
  (forall r, is_placeholder r = true ->
     pushed_before r TBLPTRU l /\ pushed_before r TOSU l) /\
  pushed_before TBLPTRU Scratch l /\ pushed_before TOSU Scratch l.

(** The slots stored to by a call, in program order. *)
Definition slots_stored (ROMSIZE scratch top pxCode pvParameters : Z)
    (m : gmap Z Z) : list slot :=
  st_slot <$> stores (snd
    (call_pxPortInitialiseStack ROMSIZE scratch top pxCode pvParameters m)).

(** ** File-scope variables and [usPortCALCULATE_MINIMAL_STACK_SIZE] *)

(** The two file-scope variables of port.c, and the interrupt-enable bit of
    the CPU that the critical-section counter stands guard over. *)
Record machine : Set := Machine {
  usCalcMinStackSize : Z;
  ucCriticalNesting : Z;
  interrupts_enabled : bool
}.

(** [uint16_t usCalcMinStackSize = 0;]
    [register uint8_t ucCriticalNesting = 0x7F;] *)
Definition startup (gie : bool) : machine :=
  {| usCalcMinStackSize := 0; ucCriticalNesting := 0x7F;
     interrupts_enabled := gie |}.

(** [movwf usCalcMinStackSize,BANKED] : the PIC18 moves its 8-bit working
    register into the one file register at the variable's address, the low
    byte of the 16-bit variable; the high byte, one address up, is left as
    it was. *)
Definition movwf_low_byte (W var : Z) : Z := Z.lor (Z.land var 0xFF00) W.

Definition set_usCalcMinStackSize (v : Z) (g : machine) : machine :=
  {| usCalcMinStackSize := v; ucCriticalNesting := ucCriticalNesting g;
     interrupts_enabled := interrupts_enabled g |}.

(** [usPortCALCULATE_MINIMAL_STACK_SIZE].  [scratch] is the same link-time
    constant as in [pxPortInitialiseStack]:
    [movlw OVERHEADPAGE0-LOCOPTSIZE+MAXLOCOPTSIZE] loads its low eight bits
    into the working register, [movlb usCalcMinStackSize>>8] selects the
    variable's bank, [movwf] stores; then comes the C statement
    [usCalcMinStackSize += ...] on the [uint16_t] variable. *)
Definition usPortCALCULATE_MINIMAL_STACK_SIZE (ROMSIZE scratch : Z)
    (g : machine) : Z * machine :=
  let W := uint8 scratch in
  let g := set_usCalcMinStackSize (movwf_low_byte W (usCalcMinStackSize g)) g in
  let g := set_usCalcMinStackSize
             (uint16 (usCalcMinStackSize g
                      + (portSTACK_FSR_BYTES ROMSIZE
                         + portSTACK_MINIMAL_CALLRETURN_DEPTH
                           * portSTACK_CALLRETURN_ENTRY_SIZE ROMSIZE
                         + portSTACK_OTHER_BYTES))) g in
  (usCalcMinStackSize g, g).

(** The state after [n] successive calls. *)
Definition after_calls (ROMSIZE scratch : Z) (n : nat) (g : machine) : machine :=
  Nat.iter n (fun g => snd (usPortCALCULATE_MINIMAL_STACK_SIZE ROMSIZE scratch g)) g.

(** The size formula, in the specification's words: scratch size plus
    register bytes of the tier plus 10 records of the tier plus 20. *)
Definition spec_minimal_stack_size (ROMSIZE S : Z) : Z :=
  S + portSTACK_FSR_BYTES ROMSIZE
    + 10 * portSTACK_CALLRETURN_ENTRY_SIZE ROMSIZE + 20.

(** The number of bytes [pxPortInitialiseStack] stores. *)
Definition frame_bytes (ROMSIZE scratch top pxCode pvParameters : Z)
    (m : gmap Z Z) : Z :=
  Z.of_nat (length (stores (snd
    (call_pxPortInitialiseStack ROMSIZE scratch top pxCode pvParameters m)))).

(** ** Critical sections *)







(** ** The rest of the kernel, as seen from port.c *)

(** Calls that leave port.c, and the one instruction that leaves the
    program, in the order they happen. *)
Inductive call : Set :=
  | CallSetupTick
  | CallRestoreContext
  | CallSuspendAll
  | CallResumeAll
  | CallMalloc (size : Z)
  | CallFree (pv : Z)
  | AsmReset.

#[global] Instance call_eq_dec : EqDecision call.
Proof. solve_decision. Defined.

(** What port.c is linked against.  [W] is the state of the collaborators
    (scheduler lists, heap, tick timer).  [pdTRUE] and the type [malloc_t]
    come from headers outside port.c and are taken as parameters.
    [ext_portRESTORE_CONTEXT] also tells whether control comes back from
    the macro ([true]) or has gone to the restored task ([false]). *)
Class Kernel (W : Type) : Type := {
  pdTRUE : Z;
  malloc_t : Z -> Z;
  ext_portSetupTick : W -> W;
  ext_portRESTORE_CONTEXT : W -> bool * W;
  ext_vTaskSuspendAll : W -> W;
  ext_xTaskResumeAll : W -> Z * W;
  ext_malloc : Z -> W -> Z * W;
  ext_free : Z -> W -> W
}.

Record env (W : Type) : Type := Env { world : W; calls : list call }.
Arguments Env {W} _ _.
Arguments world {W} _.
Arguments calls {W} _.

(** How a function of port.c can end. *)
Inductive outcome (A : Type) : Type :=
  | Returns (a : A)      (* back to the caller *)
  | TaskResumed          (* control went to a task; the caller is abandoned *)
  | HardwareReset.       (* the [reset] instruction was executed *)
Arguments Returns {A} _.
Arguments TaskResumed {A}.
Arguments HardwareReset {A}.

Definition K (W A : Type) : Type := env W -> outcome A * env W.

#[global] Instance K_ret {W} : MRet (K W) := fun A (a : A) e => (Returns a, e).
#[global] Instance K_bind {W} : MBind (K W) :=
  fun A B (k : A -> K W B) (c : K W A) e =>
    match c e with
    | (Returns a, e') => k a e'
    | (TaskResumed, e') => (TaskResumed, e')
    | (HardwareReset, e') => (HardwareReset, e')
    end.

(** A call to a collaborator that comes back with a result. *)
Definition extern {W A} (c : call) (f : W -> A * W) : K W A := fun e =>
  let (a, w) := f (world e) in (Returns a, Env w (calls e ++ [c])).

Section Port.
Context {W : Type} {kernel : Kernel W}.

Definition portSetupTick : K W unit :=
  extern CallSetupTick (fun w => (tt, ext_portSetupTick w)).

Definition portRESTORE_CONTEXT : K W unit := fun e =>
  let (back, w) := ext_portRESTORE_CONTEXT (world e) in
  (if back then Returns tt else TaskResumed,
   Env w (calls e ++ [CallRestoreContext])).

Definition vTaskSuspendAll : K W unit :=
  extern CallSuspendAll (fun w => (tt, ext_vTaskSuspendAll w)).

Definition xTaskResumeAll : K W Z :=
  extern CallResumeAll ext_xTaskResumeAll.

Definition malloc (size : Z) : K W Z :=
  extern (CallMalloc size) (ext_malloc size).

Definition free (pv : Z) : K W unit :=
  extern (CallFree pv) (fun w => (tt, ext_free pv w)).

(** [_Pragma(asmline reset);] *)
Definition asm_reset : K W unit := fun e =>
  (HardwareReset, Env (world e) (calls e ++ [AsmReset])).

Definition xPortStartScheduler : K W Z :=
  portSetupTick ;;
  portRESTORE_CONTEXT ;;
  mret pdTRUE.

Definition vPortEndScheduler : K W unit :=
  asm_reset.

Definition pvPortMalloc (usWantedSize : Z) : K W Z :=
  vTaskSuspendAll ;;
  pvReturn ← malloc (malloc_t usWantedSize) ;
  xTaskResumeAll ;;
  mret pvReturn.

Definition vPortFree (pv : Z) : K W unit :=
  if negb (pv =? 0) then
    vTaskSuspendAll ;;
    free pv ;;
    xTaskResumeAll ;;
    mret tt
  else mret tt.

End Port.

(** A kernel to run the functions on: the heap is a bump allocator over
    [limit] bytes, the scheduler counts its suspensions, and
    [restore_returns] says whether [portRESTORE_CONTEXT] falls through. *)
Record toy_world : Set := Toy {
  heap_next : Z;
  suspended : Z;
  tick_armed : bool
}.

Definition toy_kernel (limit : Z) (restore_returns : bool) : Kernel toy_world :=
  {| pdTRUE := 1;
     malloc_t := uint16;
     ext_portSetupTick := fun w => Toy (heap_next w) (suspended w) true;
     ext_portRESTORE_CONTEXT := fun w => (restore_returns, w);
     ext_vTaskSuspendAll := fun w =>
       Toy (heap_next w) (suspended w + 1) (tick_armed w);
     ext_xTaskResumeAll := fun w =>
       (0, Toy (heap_next w) (suspended w - 1) (tick_armed w));
     ext_malloc := fun size w =>
       if heap_next w + size <=? limit
       then (heap_next w + 1, Toy (heap_next w + size) (suspended w) (tick_armed w))
       else (0, w);
     ext_free := fun pv w => w |}.

Definition toy_start : env toy_world := Env (Toy 0 0 false) [].

(** The slots that are compiled in only under [#if _ROMSIZE > 0x8000]. *)
Definition large_tier_only (s : slot) : bool :=
  match s with
  | TBLPTRU | PCLATU | TOSU => true
  | _ => false
  end.

(** The slot and the value of every store of a call, in program order. *)
Definition bytes_stored (ROMSIZE scratch top pxCode pvParameters : Z)
    (m : gmap Z Z) : list (slot * Z) :=
  (fun x => (st_slot x, st_val x)) <$> stores (snd
    (call_pxPortInitialiseStack ROMSIZE scratch top pxCode pvParameters m)).

(** ** Callers of the allocator gate *)

(** A request a task makes to the heap through port.c. *)
Inductive heap_request : Set :=
  | RequestMalloc (usWantedSize : Z)
  | RequestFree (pv : Z).

(** Requests that get as far as the allocator: every allocation, and every
    free of a handle that is not null. *)
Definition reaches_allocator (rq : heap_request) : bool :=
  match rq with
  | RequestMalloc _ => true
  | RequestFree pv => negb (pv =? 0)
  end.

Section Requests.
Context {W : Type} {kernel : Kernel W}.

Definition serve (rq : heap_request) : K W unit :=
  match rq with
  | RequestMalloc usWantedSize => pvPortMalloc usWantedSize ;; mret tt
  | RequestFree pv => vPortFree pv
  end.

Fixpoint serve_all (rqs : list heap_request) : K W unit :=
  match rqs with
  | [] => mret tt
  | rq :: rqs => serve rq ;; serve_all rqs
  end.

(** [vPortFree( pvPortMalloc( usWantedSize ) );] *)
Definition malloc_then_free (usWantedSize : Z) : K W unit :=
  pv ← pvPortMalloc usWantedSize ;
  vPortFree pv.

End Requests.

(** The discipline of the gate, as an automaton over the calls made: the
    scheduler is suspended, the allocator is called once, the scheduler is
    resumed; nothing else is accepted. *)
Inductive gate_state : Set := GateIdle | GateSuspended | GateServed.

Definition gate_next (s : gate_state) (c : call) : option gate_state :=
  match s, c with
  | GateIdle, CallSuspendAll => Some GateSuspended
  | GateSuspended, CallMalloc _ => Some GateServed
  | GateSuspended, CallFree _ => Some GateServed
  | GateServed, CallResumeAll => Some GateIdle
  | _, _ => None
  end.

Fixpoint gate_accepts (s : gate_state) (l : list call) : bool :=
  match l with
  | [] => match s with GateIdle => true | _ => false end
  | c :: l =>
      match gate_next s c with
      | Some s' => gate_accepts s' l
      | None => false
      end
  end.

Example frame_small :
  let r := call_pxPortInitialiseStack 0x4000 2 100 0x1234 0xBEEF ∅ in
  fst r = 79 /\ map st_val (stores (snd r)) =
    [0xBE; 0xEF; 0x11; 0x22; 0x33; 0x44; 0x55; 0x66; 0x77; 0x88; 0x99; 0xAA;
     0xCC; 0xDD; 0xFF; 0; 0; 0x12; 0x34; 1; 0].
Proof. vm_compute. split; reflexivity. Qed.

Example frame_large :
  let r := call_pxPortInitialiseStack 0x8001 2 100 0x1234 0xBEEF ∅ in
  fst r = 76 /\ map st_val (stores (snd r)) =
    [0xBE; 0xEF; 0x11; 0x22; 0x33; 0x44; 0x55; 0x66; 0x77; 0x88; 0x99; 0xAA;
     0; 0xCC; 0xDD; 0xEE; 0xFF; 0; 0; 0; 0x12; 0x34; 1; 0].
Proof. vm_compute. split; reflexivity. Qed.

(** * Properties *)

(** ** Bytes *)

Lemma uint8_small x : 0 <= x < 256 -> uint8 x = x.
Proof. intros Hx. unfold uint8. apply Z.mod_small. lia. Qed.

Lemma land_0xff x : Z.land x 0x00ff = x mod 256.
Proof. change 0x00ff with (Z.ones 8). rewrite Z.land_ones by lia. reflexivity. Qed.

(** [( ( uint16_t ) p >> 8 ) & 0x00ff] is the high byte of [p]. *)
Lemma code_high_byte p :
  StackType_t (Z.land (Z.shiftr (uint16 p) 8) 0x00ff) = high_byte p.
Proof.
  unfold StackType_t, uint8, uint16, high_byte.
  rewrite land_0xff, Z.shiftr_div_pow2 by lia.
  change (2 ^ 8) with 256. change 65536 with (256 * 256).
  rewrite Z.rem_mul_r by lia.
  rewrite (Z.mul_comm 256), Z.div_add by lia.
  rewrite (Z.div_small (p mod 256)) by (apply Z.mod_pos_bound; lia).
  rewrite Z.add_0_l, !Z.mod_mod by lia. reflexivity.
Qed.

(** [( uint16_t ) p & 0x00ff] is the low byte of [p]. *)
Lemma code_low_byte p :
  StackType_t (Z.land (uint16 p) 0x00ff) = low_byte p.
Proof.
  unfold StackType_t, uint8, uint16, low_byte.
  rewrite land_0xff, Z.mod_mod by lia.
  change 65536 with (256 * 256).
  rewrite Z.rem_mul_r by lia.
  rewrite (Z.mul_comm 256), Z.mod_add by lia.
  apply Z.mod_mod. lia.
Qed.

Lemma high_byte_range p : 0 <= high_byte p < 256.
Proof. unfold high_byte. apply Z.mod_pos_bound. lia. Qed.

Lemma low_byte_range p : 0 <= low_byte p < 256.
Proof. unfold low_byte. apply Z.mod_pos_bound. lia. Qed.

(** ** Laying bytes down from the stack pointer *)

Lemma lay_cons sv l st : lay (sv :: l) st = lay l (put st sv).
Proof. reflexivity. Qed.

Lemma lay_app l1 l2 st : lay (l1 ++ l2) st = lay l2 (lay l1 st).
Proof. unfold lay. apply foldl_app. Qed.

Lemma lay_top l st :
  pxTopOfStack (lay l st) = pxTopOfStack st - Z.of_nat (length l).
Proof.
  revert st. induction l as [|sv l IH]; intros st.
  - simpl. lia.
  - rewrite lay_cons, IH. simpl. lia.
Qed.

Lemma lay_stores l st :
  stores (lay l st) = stores st ++ laid (pxTopOfStack st) l.
Proof.
  revert st. induction l as [|sv l IH]; intros st.
  - simpl. unfold laid. simpl. rewrite app_nil_r. reflexivity.
  - rewrite lay_cons, IH. simpl. rewrite <- app_assoc. f_equal.
    unfold laid. simpl. rewrite Z.sub_0_r. f_equal.
    apply imap_ext. intros i sv' _. simpl. f_equal. lia.
Qed.

Lemma lay_ram_outside l st a :
  a <= pxTopOfStack st - Z.of_nat (length l) \/ pxTopOfStack st < a ->
  ram (lay l st) !! a = ram st !! a.
Proof.
  revert st. induction l as [|sv l IH]; intros st Ha.
  - reflexivity.
  - rewrite lay_cons, IH by (simpl in *; lia).
    simpl. apply lookup_insert_ne. simpl in Ha. lia.
Qed.

Lemma lay_ram_inside l st i sv :
  l !! i = Some sv ->
  ram (lay l st) !! (pxTopOfStack st - Z.of_nat i) = Some sv.2.
Proof.
  revert st i. induction l as [|sv' l IH]; intros st i Hi.
  - discriminate.
  - rewrite lay_cons. destruct i as [|i].
    + injection Hi as ->. rewrite lay_ram_outside by (simpl; lia).
      simpl. rewrite Z.sub_0_r. apply lookup_insert_eq.
    + simpl in Hi. specialize (IH (put st sv') i Hi).
      simpl in IH. rewrite <- IH. f_equal. lia.
Qed.

Lemma laid_length top l : length (laid top l) = length l.
Proof. unfold laid. apply length_imap. Qed.

Lemma laid_lookup top l i :
  laid top l !! i = (fun sv => Store (top - Z.of_nat i) sv.1 sv.2) <$> l !! i.
Proof. unfold laid. apply list_lookup_imap. Qed.

Lemma scratch_loop_lay n st :
  scratch_loop n st = (tt, lay (replicate n (Scratch, 0)) st).
Proof.
  revert st. induction n as [|n IH]; intros st.
  - reflexivity.
  - simpl. rewrite <- IH. reflexivity.
Qed.

Lemma bind_push {A} s v (k : M A) st :
  (push s v ;; k) st = k (put st (s, StackType_t v)).
Proof. reflexivity. Qed.

Lemma bind_scratch_loop {A} n (k : M A) st :
  (scratch_loop n ;; k) st = k (lay (replicate n (Scratch, 0)) st).
Proof. unfold mbind, M_bind. rewrite scratch_loop_lay. reflexivity. Qed.

Lemma bind_if_large_rom {A} ROMSIZE s v (k : M A) st :
  (if_large_rom ROMSIZE (push s v) ;; k) st =
  k (lay (if large_rom ROMSIZE then [(s, StackType_t v)] else []) st).
Proof. unfold if_large_rom. destruct (large_rom ROMSIZE); reflexivity. Qed.

(** The code lays down exactly the frame of [frame_image]. *)
Lemma pxPortInitialiseStack_lay ROMSIZE scratch pxCode pvParameters st :
  pxPortInitialiseStack ROMSIZE scratch pxCode pvParameters st =
  (pxTopOfStack (lay (frame_image ROMSIZE (uint8 scratch) pxCode pvParameters) st),
   lay (frame_image ROMSIZE (uint8 scratch) pxCode pvParameters) st).
Proof.
  unfold pxPortInitialiseStack.
  rewrite !bind_push, !bind_if_large_rom, !bind_push, !bind_if_large_rom,
    !bind_push, bind_scratch_loop, bind_if_large_rom, !bind_push.
  rewrite !code_high_byte, !code_low_byte.
  unfold return_pxTopOfStack, frame_image, register_block, return_record.
  rewrite !lay_app.
  destruct (large_rom ROMSIZE); reflexivity.
Qed.

Lemma laid_app top l1 l2 :
  laid top (l1 ++ l2) = laid top l1 ++ laid (top - Z.of_nat (length l1)) l2.
Proof.
  unfold laid. rewrite imap_app. f_equal.
  apply imap_ext. intros i sv _. simpl. f_equal. lia.
Qed.

Lemma laid_four top a b c d :
  laid top [a; b; c; d] =
  [Store top a.1 a.2; Store (top - 1) b.1 b.2;
   Store (top - 2) c.1 c.2; Store (top - 3) d.1 d.2].
Proof. unfold laid. simpl. rewrite Z.sub_0_r. reflexivity. Qed.

Lemma register_block_length ROMSIZE :
  Z.of_nat (length (register_block ROMSIZE)) = portSTACK_FSR_BYTES ROMSIZE.
Proof.
  unfold register_block, portSTACK_FSR_BYTES.
  destruct (large_rom ROMSIZE); reflexivity.
Qed.

Lemma return_record_length ROMSIZE pxCode :
  Z.of_nat (length (return_record ROMSIZE pxCode)) =
  portSTACK_CALLRETURN_ENTRY_SIZE ROMSIZE.
Proof.
  unfold return_record, portSTACK_CALLRETURN_ENTRY_SIZE.
  destruct (large_rom ROMSIZE); reflexivity.
Qed.

Lemma frame_image_length ROMSIZE S pxCode pvParameters :
  0 <= S ->
  Z.of_nat (length (frame_image ROMSIZE S pxCode pvParameters)) =
  S + portSTACK_FSR_BYTES ROMSIZE + portSTACK_CALLRETURN_ENTRY_SIZE ROMSIZE + 4.
Proof.
  intros HS. unfold frame_image.
  rewrite !length_app, !Nat2Z.inj_add, length_replicate,
    register_block_length, return_record_length, Z2Nat.id by lia.
  simpl. lia.
Qed.

Lemma frame_image_split ROMSIZE S pxCode pvParameters :
  frame_image ROMSIZE S pxCode pvParameters =
  frame_front ROMSIZE S pvParameters ++
  [(TOSH, high_byte pxCode); (TOSL, low_byte pxCode); (ReturnDepth, 1);
   (CriticalNesting, portNO_CRITICAL_SECTION_NESTING)].
Proof.
  unfold frame_image, frame_front, return_record.
  rewrite <- !app_assoc. reflexivity.
Qed.

Lemma call_pxPortInitialiseStack_eq ROMSIZE scratch top pxCode pvParameters m :
  call_pxPortInitialiseStack ROMSIZE scratch top pxCode pvParameters m =
  let img := frame_image ROMSIZE (uint8 scratch) pxCode pvParameters in
  (top - Z.of_nat (length img), lay img (Stack top m [])).
Proof.
  unfold call_pxPortInitialiseStack. rewrite pxPortInitialiseStack_lay.
  rewrite lay_top. reflexivity.
Qed.

(** C1: for every initial top-of-stack pointer, entry address and parameter,
    in both tiers, the first two stores of [pxPortInitialiseStack] put the
    parameter's high byte and then its low byte at the two highest addresses
    of the frame (every store goes one slot lower than the one before), and
    the stores of the entry address' high byte and low byte into the
    call/return record are followed by the store of the count byte 1. *)
Theorem pxPortInitialiseStack_entry_and_parameter
    (ROMSIZE scratch top pxCode pvParameters : Z) (m : gmap Z Z) :
  let r := call_pxPortInitialiseStack ROMSIZE scratch top pxCode pvParameters m in
  let new_top := fst r in
  let st := snd r in
  stores st !! 0%nat = Some (Store top ParamHigh (high_byte pvParameters)) /\
  stores st !! 1%nat = Some (Store (top - 1) ParamLow (low_byte pvParameters)) /\
  (forall i x, stores st !! i = Some x -> st_addr x = top - Z.of_nat i) /\
  ram st !! top = Some (high_byte pvParameters) /\
  ram st !! (top - 1) = Some (low_byte pvParameters) /\
  (exists before,
     stores st = before ++
       [Store (new_top + 4) TOSH (high_byte pxCode);
        Store (new_top + 3) TOSL (low_byte pxCode);
        Store (new_top + 2) ReturnDepth 1;
        Store (new_top + 1) CriticalNesting portNO_CRITICAL_SECTION_NESTING]) /\
  ram st !! (new_top + 4) = Some (high_byte pxCode) /\
  ram st !! (new_top + 3) = Some (low_byte pxCode) /\
  ram st !! (new_top + 2) = Some 1.
Proof.
  intros r new_top st. subst new_top st r.
  rewrite call_pxPortInitialiseStack_eq. cbn zeta. cbn [fst snd].
  set (img := frame_image ROMSIZE (uint8 scratch) pxCode pvParameters).
  set (st0 := Stack top m []).
  assert (Himg : img = frame_front ROMSIZE (uint8 scratch) pvParameters ++
     [(TOSH, high_byte pxCode); (TOSL, low_byte pxCode); (ReturnDepth, 1);
      (CriticalNesting, portNO_CRITICAL_SECTION_NESTING)])
    by apply frame_image_split.
  set (front := frame_front ROMSIZE (uint8 scratch) pvParameters) in Himg.
  assert (Hlen : Z.of_nat (length img) = Z.of_nat (length front) + 4).
  { rewrite Himg, length_app, Nat2Z.inj_add. reflexivity. }
  assert (Hin : forall i sv, img !! i = Some sv ->
            ram (lay img st0) !! (top - Z.of_nat i) = Some sv.2)
    by (intros i sv; apply (lay_ram_inside img st0)).
  assert (Htail : forall k sv,
            [(TOSH, high_byte pxCode); (TOSL, low_byte pxCode); (ReturnDepth, 1);
             (CriticalNesting, portNO_CRITICAL_SECTION_NESTING)] !! k = Some sv ->
            ram (lay img st0) !! (top - Z.of_nat (length img) + 4 - Z.of_nat k)
            = Some sv.2).
  { intros k sv Hk.
    replace (top - Z.of_nat (length img) + 4 - Z.of_nat k)
      with (top - Z.of_nat (length front + k)) by lia.
    apply Hin. rewrite Himg, lookup_app_r by lia.
    replace (length front + k - length front)%nat with k by lia. exact Hk. }
  rewrite lay_stores. change (stores st0) with (@nil store).
  change (pxTopOfStack st0) with top. rewrite app_nil_l.
  split_and!.
  - rewrite laid_lookup. change (img !! 0%nat)
      with (Some (ParamHigh, high_byte pvParameters)).
    simpl. rewrite Z.sub_0_r. reflexivity.
  - rewrite laid_lookup. reflexivity.
  - intros i x. rewrite laid_lookup. destruct (img !! i); simpl; [|discriminate].
    intros [= <-]. reflexivity.
  - rewrite <- (Z.sub_0_r top) at 1.
    apply (Hin 0%nat (ParamHigh, high_byte pvParameters)). reflexivity.
  - apply (Hin 1%nat (ParamLow, low_byte pvParameters)). reflexivity.
  - exists (laid top front). rewrite Himg at 1. rewrite laid_app. f_equal.
    rewrite laid_four. cbn [fst snd]. repeat f_equal; lia.
  - replace (top - Z.of_nat (length img) + 4)
      with (top - Z.of_nat (length img) + 4 - Z.of_nat 0) by lia.
    apply (Htail 0%nat (TOSH, high_byte pxCode)). reflexivity.
  - replace (top - Z.of_nat (length img) + 3)
      with (top - Z.of_nat (length img) + 4 - Z.of_nat 1) by lia.
    apply (Htail 1%nat (TOSL, low_byte pxCode)). reflexivity.
  - replace (top - Z.of_nat (length img) + 2)
      with (top - Z.of_nat (length img) + 4 - Z.of_nat 2) by lia.
    apply (Htail 2%nat (ReturnDepth, 1)). reflexivity.
Qed.

(** The addresses stored to: one slot lower at every store. *)
Lemma laid_addrs top l :
  st_addr <$> laid top l = (fun i => top - Z.of_nat i) <$> seq 0 (length l).
Proof.
  unfold laid. rewrite fmap_imap. apply (imap_seq_0 l (fun i => top - Z.of_nat i)).
Qed.

Lemma laid_addrs_elem top l a :
  a ∈ (st_addr <$> laid top l) <-> top - Z.of_nat (length l) < a <= top.
Proof.
  rewrite laid_addrs, list_elem_of_fmap. split.
  - intros (i & -> & Hi). apply elem_of_seq in Hi. lia.
  - intros Ha. exists (Z.to_nat (top - a)). split; [lia|].
    apply elem_of_seq. lia.
Qed.

Lemma laid_addrs_NoDup top l : NoDup (st_addr <$> laid top l).
Proof.
  rewrite laid_addrs. apply NoDup_fmap_2; [|apply NoDup_seq].
  intros i j Hij. lia.
Qed.

Lemma laid_last top l :
  l <> [] ->
  st_addr <$> last (laid top l) = Some (top - Z.of_nat (length l) + 1).
Proof.
  intros Hl. rewrite last_lookup, laid_length, laid_lookup.
  destruct l as [|sv l]; [congruence|].
  destruct (lookup_lt_is_Some_2 (sv :: l) (pred (length (sv :: l)))) as [x ->].
  { simpl. lia. }
  simpl. f_equal. lia.
Qed.


Lemma frame_image_nonempty ROMSIZE S pxCode pvParameters :
  frame_image ROMSIZE S pxCode pvParameters <> [].
Proof. discriminate. Qed.

(** Laying [l] down into memory that is empty from the pointer downwards
    fills one new cell per byte. *)
Lemma lay_ram_size l : forall st,
  (forall a, a <= pxTopOfStack st -> ram st !! a = None) ->
  size (ram (lay l st)) = (size (ram st) + length l)%nat.
Proof.
  induction l as [|sv l IH]; intros st Hfree.
  - simpl. lia.
  - rewrite lay_cons, IH.
    + cbn [put ram length]. rewrite map_size_insert_None by (apply Hfree; lia).
      lia.
    + intros a Ha. cbn [put ram pxTopOfStack] in *.
      rewrite lookup_insert_ne by lia. apply Hfree. lia.
Qed.

(** C2: for every initial pointer and every scratch size, the pointer
    returned by [pxPortInitialiseStack] is one slot below the last byte
    stored, which is the lowest address written and holds the saved nesting
    counter.  The bytes go to the distinct addresses between the returned
    pointer (exclusive) and the initial pointer (inclusive): after the call
    every one of these memory cells holds the byte stored there, and every
    other cell, the one at the returned pointer included, is as before.
    The number of bytes written, counted on the stores and counted on the
    cells filled in an empty memory, is the distance between the two
    pointers, and it is the scratch size plus the tier's register-block
    size plus the tier's record size plus 4: S + 13 + 2 + 4 in the small
    tier, S + 15 + 3 + 4 in the large one. *)
Theorem pxPortInitialiseStack_frame_size
    (ROMSIZE S top pxCode pvParameters : Z) (m : gmap Z Z) :
  0 <= S < 256 ->
  let r := call_pxPortInitialiseStack ROMSIZE S top pxCode pvParameters m in
  let new_top := fst r in
  let st := snd r in
  let written := frame_bytes ROMSIZE S top pxCode pvParameters m in
  st_addr <$> last (stores st) = Some (new_top + 1) /\
  (forall x, x ∈ stores st -> new_top + 1 <= st_addr x) /\
  (forall a, a ∈ (st_addr <$> stores st) <-> new_top < a <= top) /\
  NoDup (st_addr <$> stores st) /\
  (forall a, ~ (new_top < a <= top) -> ram st !! a = m !! a) /\
  new_top = top - written /\
  written = S + portSTACK_FSR_BYTES ROMSIZE
              + portSTACK_CALLRETURN_ENTRY_SIZE ROMSIZE + 4 /\
  (large_rom ROMSIZE = false -> written = S + 13 + 2 + 4) /\
  (large_rom ROMSIZE = true -> written = S + 15 + 3 + 4) /\
  (forall x, x ∈ stores st -> ram st !! st_addr x = Some (st_val x)) /\
  (forall a, new_top < a <= top ->
     exists x, x ∈ stores st /\ st_addr x = a /\ ram st !! a = Some (st_val x)) /\
  ram st !! (new_top + 1) = Some portNO_CRITICAL_SECTION_NESTING /\
  ram st !! new_top = m !! new_top /\
  (forall a, a ∈ dom (ram st) <-> a ∈ dom m \/ new_top < a <= top) /\
  Z.of_nat (size (ram (snd (call_pxPortInitialiseStack ROMSIZE S top pxCode
                              pvParameters ∅)))) = written.
Proof.
  intros HS r new_top st written. subst written new_top st r.
  unfold frame_bytes. rewrite !call_pxPortInitialiseStack_eq.
  cbn zeta. cbn [fst snd]. rewrite (uint8_small S HS).
  set (img := frame_image ROMSIZE S pxCode pvParameters).
  rewrite lay_stores. change (stores (Stack top m [])) with (@nil store).
  change (pxTopOfStack (Stack top m [])) with top. rewrite app_nil_l.
  rewrite laid_length.
  assert (Hlen : Z.of_nat (length img) =
            S + portSTACK_FSR_BYTES ROMSIZE
              + portSTACK_CALLRETURN_ENTRY_SIZE ROMSIZE + 4)
    by (apply frame_image_length; lia).
  assert (Hin : forall i sv, img !! i = Some sv ->
            ram (lay img (Stack top m [])) !! (top - Z.of_nat i) = Some sv.2)
    by (intros i sv; apply (lay_ram_inside img (Stack top m []))).
  assert (Hout : forall a, ~ (top - Z.of_nat (length img) < a <= top) ->
            ram (lay img (Stack top m [])) !! a = m !! a).
  { intros a Ha. rewrite lay_ram_outside; [reflexivity|].
    change (pxTopOfStack (Stack top m [])) with top. lia. }
  assert (Hcell : forall a, top - Z.of_nat (length img) < a <= top ->
            exists x, x ∈ laid top img /\ st_addr x = a /\
              ram (lay img (Stack top m [])) !! a = Some (st_val x)).
  { intros a Ha.
    destruct (lookup_lt_is_Some_2 img (Z.to_nat (top - a))) as [sv Hsv]; [lia|].
    exists (Store a sv.1 sv.2). split_and!.
    - apply list_elem_of_lookup. exists (Z.to_nat (top - a)).
      rewrite laid_lookup, Hsv. cbn. do 2 f_equal. lia.
    - reflexivity.
    - cbn [st_val]. replace a with (top - Z.of_nat (Z.to_nat (top - a))) at 1
        by lia.
      apply Hin. exact Hsv. }
  split_and!.
  - rewrite laid_last by apply frame_image_nonempty. f_equal.
  - intros x Hx.
    assert (Ha : st_addr x ∈ (st_addr <$> laid top img))
      by (apply list_elem_of_fmap_2; exact Hx).
    apply laid_addrs_elem in Ha. lia.
  - intros a. apply laid_addrs_elem.
  - apply laid_addrs_NoDup.
  - exact Hout.
  - reflexivity.
  - exact Hlen.
  - intros Ht. rewrite Hlen.
    unfold portSTACK_FSR_BYTES, portSTACK_CALLRETURN_ENTRY_SIZE. rewrite Ht. lia.
  - intros Ht. rewrite Hlen.
    unfold portSTACK_FSR_BYTES, portSTACK_CALLRETURN_ENTRY_SIZE. rewrite Ht. lia.
  - intros x Hx. apply list_elem_of_lookup in Hx as [i Hi].
    rewrite laid_lookup in Hi.
    destruct (img !! i) as [sv|] eqn:Hsv; [|discriminate].
    injection Hi as <-. cbn [st_addr st_val]. apply Hin. exact Hsv.
  - exact Hcell.
  - assert (Hlast : img !! (length img - 1)%nat
                    = Some (CriticalNesting, portNO_CRITICAL_SECTION_NESTING)).
    { unfold img. rewrite frame_image_split, length_app. cbn [length].
      rewrite lookup_app_r by lia.
      match goal with |- _ !! ?k = _ => replace k with 3%nat by lia end.
      reflexivity. }
    assert (Hpos : (1 <= length img)%nat).
    { unfold img. rewrite frame_image_split, length_app. cbn [length]. lia. }
    replace (top - Z.of_nat (length img) + 1)
      with (top - Z.of_nat (length img - 1)) by lia.
    apply (Hin _ _ Hlast).
  - apply Hout. lia.
  - intros a. rewrite !elem_of_dom.
    destruct (decide (top - Z.of_nat (length img) < a <= top)) as [Ha|Ha].
    + destruct (Hcell a Ha) as (x & _ & _ & ->). split; eauto.
    + rewrite (Hout a Ha). split; [auto|]. intros [Hm|Hr]; [exact Hm|lia].
  - rewrite lay_ram_size by (intros a _; apply lookup_empty).
    cbn [ram]. rewrite map_size_empty, Nat.add_0_l. reflexivity.
Qed.

Lemma pxPortInitialiseStack_frame_size_witness :
  frame_bytes 0x8001 7 0x0EFF 0x1234 0xBEEF ∅ = 7 + 15 + 3 + 4 /\
  Z.of_nat (size (ram (snd (call_pxPortInitialiseStack
                              0x8001 7 0x0EFF 0x1234 0xBEEF ∅))))
  = frame_bytes 0x8001 7 0x0EFF 0x1234 0xBEEF ∅.
Proof.
  assert (H : 0 <= 7 < 256) by lia.
  destruct (pxPortInitialiseStack_frame_size 0x8001 7 0x0EFF 0x1234 0xBEEF ∅ H)
    as (_ & _ & _ & _ & _ & _ & _ & _ & Hlarge & _ & _ & _ & _ & _ & Hsize).
  split; [apply Hlarge; reflexivity|exact Hsize].
Defined.

(** ** Order of the stores *)

Lemma laid_slots top l : st_slot <$> laid top l = l.*1.
Proof.
  unfold laid. rewrite fmap_imap.
  rewrite (imap_ext _ (const fst)) by reflexivity.
  apply imap_const.
Qed.

Lemma slots_stored_eq ROMSIZE scratch top pxCode pvParameters m :
  slots_stored ROMSIZE scratch top pxCode pvParameters m =
  (frame_image ROMSIZE (uint8 scratch) pxCode pvParameters).*1.
Proof.
  unfold slots_stored. rewrite call_pxPortInitialiseStack_eq. cbn zeta.
  cbn [snd]. rewrite lay_stores. apply laid_slots.
Qed.

(** If [b] does not occur in [l1] and [a] does not occur in [l2], every [a]
    of [l1 ++ l2] is before every [b]. *)
Lemma pushed_before_app a b l1 l2 :
  b ∉ l1 -> a ∉ l2 -> pushed_before a b (l1 ++ l2).
Proof.
  intros Hb Ha i j Hi Hj.
  destruct (decide (i < length l1)%nat) as [Hlt|Hge].
  - destruct (decide (j < length l1)%nat) as [Hjlt|Hjge]; [|lia].
    rewrite lookup_app_l in Hj by lia.
    exfalso. apply Hb. eapply list_elem_of_lookup_2. exact Hj.
  - rewrite lookup_app_r in Hi by lia.
    exfalso. apply Ha. eapply list_elem_of_lookup_2. exact Hi.
Qed.

Lemma not_elem_of_replicate_ne (a b : slot) n : a <> b -> a ∉ replicate n b.
Proof. intros Hab Hin. apply elem_of_replicate in Hin as [? _]. congruence. Qed.

Ltac slot_not_in :=
  lazymatch goal with
  | |- _ ∉ [] => apply not_elem_of_nil
  | |- _ ∉ _ :: _ => apply not_elem_of_cons; split; [discriminate | slot_not_in]
  | |- _ ∉ _ ++ _ => apply not_elem_of_app; split; slot_not_in
  | |- _ ∉ replicate _ _ => apply not_elem_of_replicate_ne; discriminate
  end.

Lemma frame_image_large ROMSIZE S pxCode pvParameters :
  large_rom ROMSIZE = true ->
  frame_image ROMSIZE S pxCode pvParameters =
  [(ParamHigh, high_byte pvParameters); (ParamLow, low_byte pvParameters);
   (STATUS, 0x11); (WREG, 0x22); (BSR, 0x33); (PRODH, 0x44); (PRODL, 0x55);
   (FSR0H, 0x66); (FSR0L, 0x77); (FSR1H, 0x88); (FSR1L, 0x99); (TABLAT, 0xAA);
   (TBLPTRU, 0);
   (TBLPTRH, 0xCC); (TBLPTRL, 0xDD); (PCLATU, 0xEE); (PCLATH, 0xFF)]
  ++ replicate (Z.to_nat S) (Scratch, 0)
  ++ [(TOSU, 0); (TOSH, high_byte pxCode); (TOSL, low_byte pxCode);
      (ReturnDepth, 1); (CriticalNesting, 0)].
Proof.
  intros Ht. unfold frame_image, register_block, return_record.
  rewrite Ht. reflexivity.
Qed.

Lemma frame_image_small ROMSIZE S pxCode pvParameters :
  large_rom ROMSIZE = false ->
  frame_image ROMSIZE S pxCode pvParameters =
  [(ParamHigh, high_byte pvParameters); (ParamLow, low_byte pvParameters);
   (STATUS, 0x11); (WREG, 0x22); (BSR, 0x33); (PRODH, 0x44); (PRODL, 0x55);
   (FSR0H, 0x66); (FSR0L, 0x77); (FSR1H, 0x88); (FSR1L, 0x99); (TABLAT, 0xAA);
   (TBLPTRH, 0xCC); (TBLPTRL, 0xDD); (PCLATH, 0xFF)]
  ++ replicate (Z.to_nat S) (Scratch, 0)
  ++ [(TOSH, high_byte pxCode); (TOSL, low_byte pxCode);
      (ReturnDepth, 1); (CriticalNesting, 0)].
Proof.
  intros Ht. unfold frame_image, register_block, return_record.
  rewrite Ht. reflexivity.
Qed.

(** C3, as the code has it: in the large tier, and only there,
    [pxPortInitialiseStack] stores the extra high byte of the table pointer
    (TBLPTRU) and of the return address (TOSU), both zero.  TBLPTRU is
    stored inside the register block, right after TABLAT and before
    TBLPTRH; TOSU is stored after the scratch padding, right before the
    high byte of the entry address. *)
Theorem pxPortInitialiseStack_extra_high_bytes
    (ROMSIZE S top pxCode pvParameters : Z) (m : gmap Z Z) :
  0 <= S < 256 ->
  let st := snd (call_pxPortInitialiseStack ROMSIZE S top pxCode pvParameters m) in
  let slots := slots_stored ROMSIZE S top pxCode pvParameters m in
  (large_rom ROMSIZE = true ->
     stores st = laid top
       ([(ParamHigh, high_byte pvParameters); (ParamLow, low_byte pvParameters);
         (STATUS, 0x11); (WREG, 0x22); (BSR, 0x33); (PRODH, 0x44);
         (PRODL, 0x55); (FSR0H, 0x66); (FSR0L, 0x77); (FSR1H, 0x88);
         (FSR1L, 0x99); (TABLAT, 0xAA);
         (TBLPTRU, 0);
         (TBLPTRH, 0xCC); (TBLPTRL, 0xDD); (PCLATU, 0xEE); (PCLATH, 0xFF)]
        ++ replicate (Z.to_nat S) (Scratch, 0)
        ++ [(TOSU, 0); (TOSH, high_byte pxCode); (TOSL, low_byte pxCode);
            (ReturnDepth, 1); (CriticalNesting, 0)]) /\
     ram st !! (top - 12) = Some 0 /\
     ram st !! (top - 17 - S) = Some 0 /\
     pushed_before TABLAT TBLPTRU slots /\
     pushed_before TBLPTRU TBLPTRH slots /\
     pushed_before Scratch TOSU slots /\
     pushed_before TOSU TOSH slots) /\
  (large_rom ROMSIZE = false -> (TBLPTRU ∉ slots) /\ (TOSU ∉ slots)).
Proof.
  intros HS st slots. subst st slots.
  rewrite slots_stored_eq, call_pxPortInitialiseStack_eq.
  cbn zeta. cbn [snd]. rewrite (uint8_small S HS). split.
  - intros Ht. rewrite (frame_image_large _ _ _ _ Ht).
    set (block := [(ParamHigh, high_byte pvParameters);
                   (ParamLow, low_byte pvParameters);
         (STATUS, 0x11); (WREG, 0x22); (BSR, 0x33); (PRODH, 0x44);
         (PRODL, 0x55); (FSR0H, 0x66); (FSR0L, 0x77); (FSR1H, 0x88);
         (FSR1L, 0x99); (TABLAT, 0xAA); (TBLPTRU, 0);
         (TBLPTRH, 0xCC); (TBLPTRL, 0xDD); (PCLATU, 0xEE); (PCLATH, 0xFF)]).
    set (rest := [(TOSU, 0); (TOSH, high_byte pxCode); (TOSL, low_byte pxCode);
                  (ReturnDepth, 1); (CriticalNesting, 0)]).
    split_and!.
    + rewrite lay_stores. reflexivity.
    + apply (lay_ram_inside _ (Stack top m []) 12 (TBLPTRU, 0)). reflexivity.
    + replace (top - 17 - S) with (top - Z.of_nat (17 + Z.to_nat S)) by lia.
      apply (lay_ram_inside _ (Stack top m []) _ (TOSU, 0)).
      rewrite lookup_app_r by (simpl; lia).
      rewrite lookup_app_r by (rewrite length_replicate; simpl; lia).
      rewrite length_replicate.
      replace ((17 + Z.to_nat S) - length block - Z.to_nat S)%nat with 0%nat
        by (simpl; lia).
      reflexivity.
    + subst block rest. rewrite <- (take_drop 12 (_.*1)).
      apply pushed_before_app.
      * cbn. slot_not_in.
      * cbn. rewrite fmap_app, fmap_replicate. cbn. slot_not_in.
    + subst block rest. rewrite <- (take_drop 13 (_.*1)).
      apply pushed_before_app.
      * cbn. slot_not_in.
      * cbn. rewrite fmap_app, fmap_replicate. cbn. slot_not_in.
    + subst block rest. rewrite app_assoc, fmap_app. apply pushed_before_app.
      * rewrite fmap_app, fmap_replicate. cbn. slot_not_in.
      * cbn. slot_not_in.
    + rewrite app_assoc, (fmap_app _ _ rest).
      change (rest.*1) with ([TOSU] ++ [TOSH; TOSL; ReturnDepth; CriticalNesting]).
      subst block. rewrite app_assoc. apply pushed_before_app.
      * rewrite !fmap_app, fmap_replicate. cbn. slot_not_in.
      * slot_not_in.
  - intros Ht. rewrite (frame_image_small _ _ _ _ Ht).
    rewrite !fmap_app, fmap_replicate. cbn. split; slot_not_in.
Qed.

Lemma pxPortInitialiseStack_extra_high_bytes_witness :
  pushed_before Scratch TOSU (slots_stored 0x8001 1 0x0EFF 0x1234 0xBEEF ∅) /\
  pushed_before TBLPTRU TBLPTRH (slots_stored 0x8001 1 0x0EFF 0x1234 0xBEEF ∅).
Proof.
  assert (HS : 0 <= 1 < 256) by lia.
  destruct (pxPortInitialiseStack_extra_high_bytes
              0x8001 1 0x0EFF 0x1234 0xBEEF ∅ HS) as [Hlarge _].
  destruct (Hlarge eq_refl) as (_ & _ & _ & _ & Hu & Hs & _).
  split; assumption.
Defined.

(** In the large tier with one byte of scratch, TOSU is stored after the
    scratch byte and TBLPTRU before the register placeholder PCLATH: the
    order of the specification's steps is not the order of the code. *)
Lemma pxPortInitialiseStack_extra_high_bytes_counterexample :
  let slots := slots_stored 0x8001 1 0x0EFF 0x1234 0xBEEF ∅ in
  ~ pushed_before TOSU Scratch slots /\
  ~ pushed_before PCLATH TBLPTRU slots /\
  ~ extra_bytes_between_block_and_scratch slots.
Proof.
  cbn zeta.
  assert (Hscratch : ~ pushed_before TOSU Scratch
                        (slots_stored 0x8001 1 0x0EFF 0x1234 0xBEEF ∅)).
  { intros H.
    assert (Habs : (18 < 17)%nat) by (apply H; vm_compute; reflexivity).
    lia. }
  split_and!.
  - exact Hscratch.
  - intros H.
    assert (Habs : (16 < 12)%nat) by (apply H; vm_compute; reflexivity).
    lia.
  - intros (_ & _ & H). exact (Hscratch H).
Qed.

(** ** The minimal stack size *)

Lemma movwf_low_byte_clear W var :
  0 <= var < 256 -> movwf_low_byte W var = W.
Proof.
  intros Hv. unfold movwf_low_byte.
  replace var with (Z.land var 0xff)
    by (rewrite land_0xff; apply Z.mod_small; lia).
  rewrite <- Z.land_assoc. change (Z.land 0xff 0xFF00) with 0.
  rewrite Z.land_0_r. apply Z.lor_0_l.
Qed.

Lemma stack_constants_range ROMSIZE :
  53 <= portSTACK_FSR_BYTES ROMSIZE
        + portSTACK_MINIMAL_CALLRETURN_DEPTH
          * portSTACK_CALLRETURN_ENTRY_SIZE ROMSIZE
        + portSTACK_OTHER_BYTES <= 65.
Proof.
  unfold portSTACK_FSR_BYTES, portSTACK_CALLRETURN_ENTRY_SIZE,
    portSTACK_MINIMAL_CALLRETURN_DEPTH, portSTACK_OTHER_BYTES.
  destruct (large_rom ROMSIZE); lia.
Qed.

(** While the high byte of [usCalcMinStackSize] is clear on entry, as it is
    at startup, the function returns the size formula and stores it. *)
Lemma usPortCALCULATE_MINIMAL_STACK_SIZE_high_byte_clear ROMSIZE S g :
  0 <= S < 256 ->
  0 <= usCalcMinStackSize g < 256 ->
  usPortCALCULATE_MINIMAL_STACK_SIZE ROMSIZE S g =
  (spec_minimal_stack_size ROMSIZE S,
   set_usCalcMinStackSize (spec_minimal_stack_size ROMSIZE S) g).
Proof.
  intros HS Hg. unfold usPortCALCULATE_MINIMAL_STACK_SIZE.
  cbn [usCalcMinStackSize set_usCalcMinStackSize].
  rewrite (uint8_small S HS), (movwf_low_byte_clear S _ Hg).
  pose proof (stack_constants_range ROMSIZE) as Hc.
  assert (Hv : uint16 (S + (portSTACK_FSR_BYTES ROMSIZE
                  + portSTACK_MINIMAL_CALLRETURN_DEPTH
                    * portSTACK_CALLRETURN_ENTRY_SIZE ROMSIZE
                  + portSTACK_OTHER_BYTES)) = spec_minimal_stack_size ROMSIZE S).
  { unfold uint16, spec_minimal_stack_size, portSTACK_MINIMAL_CALLRETURN_DEPTH,
      portSTACK_OTHER_BYTES in *.
    rewrite Z.mod_small by lia. lia. }
  rewrite Hv. reflexivity.
Qed.

Example returned_size_small :
  fst (usPortCALCULATE_MINIMAL_STACK_SIZE 0x8000 0 (startup false)) = 53.
Proof. reflexivity. Qed.

Example returned_size_large :
  fst (usPortCALCULATE_MINIMAL_STACK_SIZE 0x8001 0 (startup false)) = 65.
Proof. reflexivity. Qed.

Lemma frame_bytes_eq ROMSIZE S top pxCode pvParameters m :
  0 <= S < 256 ->
  frame_bytes ROMSIZE S top pxCode pvParameters m =
  S + portSTACK_FSR_BYTES ROMSIZE + portSTACK_CALLRETURN_ENTRY_SIZE ROMSIZE + 4.
Proof.
  intros HS. unfold frame_bytes. rewrite call_pxPortInitialiseStack_eq.
  cbn zeta. cbn [snd]. rewrite lay_stores, length_app, laid_length.
  rewrite (uint8_small S HS). cbn [stores length]. rewrite Nat.add_0_l.
  apply frame_image_length. lia.
Qed.

(** While the high byte of [usCalcMinStackSize] is clear on entry, the size
    returned covers the frame that [pxPortInitialiseStack] lays down for the
    same scratch size, in both tiers. *)
Lemma returned_size_covers_frame ROMSIZE S g top pxCode pvParameters m :
  0 <= S < 256 ->
  0 <= usCalcMinStackSize g < 256 ->
  frame_bytes ROMSIZE S top pxCode pvParameters m
  <= fst (usPortCALCULATE_MINIMAL_STACK_SIZE ROMSIZE S g).
Proof.
  intros HS Hg.
  rewrite usPortCALCULATE_MINIMAL_STACK_SIZE_high_byte_clear by assumption.
  rewrite frame_bytes_eq by assumption. cbn [fst].
  unfold spec_minimal_stack_size, portSTACK_FSR_BYTES,
    portSTACK_CALLRETURN_ENTRY_SIZE.
  destruct (large_rom ROMSIZE); lia.
Qed.

(** C4, at a second call: with a scratch size of 203 bytes in the small tier
    the size formula gives 256, and so does the first call after startup;
    the second call returns 512, because [movwf] rewrites only the low byte
    of [usCalcMinStackSize] and the high byte left by the first call is
    added in again. *)
Theorem usPortCALCULATE_MINIMAL_STACK_SIZE_second_call :
  let first := usPortCALCULATE_MINIMAL_STACK_SIZE 0x8000 203 (startup false) in
  let second := usPortCALCULATE_MINIMAL_STACK_SIZE 0x8000 203 (snd first) in
  spec_minimal_stack_size 0x8000 203 = 256 /\
  fst first = 256 /\
  usCalcMinStackSize (snd first) = 256 /\
  fst second = 512.
Proof. vm_compute. repeat split; reflexivity. Qed.

(** C5, after the accumulated high byte has wrapped: 255 calls after startup
    with a scratch size of 203 bytes in the small tier leave 0xFF00 in
    [usCalcMinStackSize]; the next call returns 0, while
    [pxPortInitialiseStack] with the same scratch size stores 222 bytes. *)
Theorem usPortCALCULATE_MINIMAL_STACK_SIZE_wraps_below_frame :
  let g := after_calls 0x8000 203 255 (startup false) in
  usCalcMinStackSize g = 0xFF00 /\
  fst (usPortCALCULATE_MINIMAL_STACK_SIZE 0x8000 203 g) = 0 /\
  frame_bytes 0x8000 203 0x0EFF 0x1234 0xBEEF ∅ = 222.
Proof. vm_compute. repeat split; reflexivity. Qed.

Lemma after_calls_S ROMSIZE S n g :
  after_calls ROMSIZE S (Datatypes.S n) g =
  snd (usPortCALCULATE_MINIMAL_STACK_SIZE ROMSIZE S (after_calls ROMSIZE S n g)).
Proof. reflexivity. Qed.

Lemma after_calls_high_byte_clear ROMSIZE S n g :
  0 <= S < 256 ->
  0 <= usCalcMinStackSize g < 256 ->
  spec_minimal_stack_size ROMSIZE S < 256 ->
  0 <= usCalcMinStackSize (after_calls ROMSIZE S n g) < 256.
Proof.
  intros HS Hg Hm. induction n as [|n IH].
  - exact Hg.
  - rewrite after_calls_S,
      usPortCALCULATE_MINIMAL_STACK_SIZE_high_byte_clear by assumption.
    cbn [snd set_usCalcMinStackSize usCalcMinStackSize].
    pose proof (stack_constants_range ROMSIZE).
    unfold spec_minimal_stack_size, portSTACK_MINIMAL_CALLRETURN_DEPTH,
      portSTACK_OTHER_BYTES in *. lia.
Qed.

(** C6, as the code has it: the function has one side effect, it leaves the
    value it returns in the file-scope variable [usCalcMinStackSize]; it
    changes neither [ucCriticalNesting] nor the interrupt enable.  When the
    high byte of the variable is clear on entry and the size fits in one
    byte, any number of further calls with the same scratch size return the
    same result. *)
Theorem usPortCALCULATE_MINIMAL_STACK_SIZE_effect
    (ROMSIZE S : Z) (g : machine) :
  0 <= S < 256 ->
  let r := usPortCALCULATE_MINIMAL_STACK_SIZE ROMSIZE S g in
  usCalcMinStackSize (snd r) = fst r /\
  ucCriticalNesting (snd r) = ucCriticalNesting g /\
  interrupts_enabled (snd r) = interrupts_enabled g /\
  (0 <= usCalcMinStackSize g < 256 ->
   spec_minimal_stack_size ROMSIZE S < 256 ->
   forall n,
     fst (usPortCALCULATE_MINIMAL_STACK_SIZE ROMSIZE S
            (after_calls ROMSIZE S n g)) = fst r).
Proof.
  intros HS r. subst r. split_and!; try reflexivity.
  intros Hg Hm n.
  rewrite !usPortCALCULATE_MINIMAL_STACK_SIZE_high_byte_clear;
    auto using after_calls_high_byte_clear.
Qed.

Lemma usPortCALCULATE_MINIMAL_STACK_SIZE_effect_witness :
  fst (usPortCALCULATE_MINIMAL_STACK_SIZE 0x8001 12
         (after_calls 0x8001 12 3 (startup false)))
  = fst (usPortCALCULATE_MINIMAL_STACK_SIZE 0x8001 12 (startup false)).
Proof.
  assert (HS : 0 <= 12 < 256) by lia.
  destruct (usPortCALCULATE_MINIMAL_STACK_SIZE_effect 0x8001 12 (startup false) HS)
    as (_ & _ & _ & Hrep).
  apply Hrep.
  - simpl. lia.
  - vm_compute. reflexivity.
Defined.

(** The first call after startup changes [usCalcMinStackSize] from 0 to 53:
    the function does have a side effect on program state. *)
Lemma usPortCALCULATE_MINIMAL_STACK_SIZE_effect_counterexample :
  snd (usPortCALCULATE_MINIMAL_STACK_SIZE 0x8000 0 (startup false))
  <> startup false.
Proof. vm_compute. discriminate. Qed.

(** ** The critical-nesting counter before the scheduler starts *)







(** ** Starting and ending the scheduler *)

Section PortProperties.
Context {W : Type} {kernel : Kernel W}.

Lemma xPortStartScheduler_run (e : env W) :
  xPortStartScheduler e =
  let w1 := ext_portSetupTick (world e) in
  let back := ext_portRESTORE_CONTEXT w1 in
  (if fst back then Returns pdTRUE else TaskResumed,
   Env (snd back) (calls e ++ [CallSetupTick; CallRestoreContext])).
Proof.
  unfold xPortStartScheduler, mbind, K_bind, portSetupTick,
    portRESTORE_CONTEXT, extern. cbn [world calls].
  destruct (ext_portRESTORE_CONTEXT (ext_portSetupTick (world e)))
    as [[|] w2]; cbn -[app]; rewrite <- app_assoc; reflexivity.
Qed.

Lemma pvPortMalloc_run (usWantedSize : Z) (e : env W) :
  pvPortMalloc usWantedSize e =
  let a := ext_malloc (malloc_t usWantedSize)
             (ext_vTaskSuspendAll (world e)) in
  (Returns (fst a),
   Env (snd (ext_xTaskResumeAll (snd a)))
       (calls e ++ [CallSuspendAll; CallMalloc (malloc_t usWantedSize);
                    CallResumeAll])).
Proof.
  unfold pvPortMalloc, mbind, K_bind, vTaskSuspendAll, malloc,
    xTaskResumeAll, extern. cbn [world calls].
  destruct (ext_malloc (malloc_t usWantedSize)
              (ext_vTaskSuspendAll (world e))) as [p w2].
  cbn [world calls fst snd].
  destruct (ext_xTaskResumeAll w2) as [x w3].
  cbn -[app]. rewrite <- !app_assoc. reflexivity.
Qed.

Lemma vPortFree_run (pv : Z) (e : env W) :
  vPortFree pv e =
  if pv =? 0 then (Returns tt, e)
  else (Returns tt,
        Env (snd (ext_xTaskResumeAll
                    (ext_free pv (ext_vTaskSuspendAll (world e)))))
            (calls e ++ [CallSuspendAll; CallFree pv; CallResumeAll])).
Proof.
  unfold vPortFree. destruct (pv =? 0); cbn [negb]; [reflexivity|].
  unfold mbind, K_bind, vTaskSuspendAll, free, xTaskResumeAll, extern.
  cbn [world calls].
  destruct (ext_xTaskResumeAll (ext_free pv (ext_vTaskSuspendAll (world e))))
    as [x w3].
  cbn -[app]. rewrite <- !app_assoc. reflexivity.
Qed.

(** C8, as the code has it: [xPortStartScheduler] arms the tick source and
    then restores the context of the first task, and makes no other call.
    When the restore hands control to the task, the function does not
    return.  If control comes back from the restore, the function returns
    [pdTRUE] to its caller and no reset instruction is executed; the
    hardware reset is what [vPortEndScheduler] does. *)
Theorem xPortStartScheduler_outcome (e : env W) :
  let back := fst (ext_portRESTORE_CONTEXT (ext_portSetupTick (world e))) in
  let r := xPortStartScheduler e in
  calls (snd r) = calls e ++ [CallSetupTick; CallRestoreContext] /\
  (back = false -> fst r = TaskResumed) /\
  (back = true -> fst r = Returns pdTRUE) /\
  fst r <> HardwareReset /\
  vPortEndScheduler e = (HardwareReset, Env (world e) (calls e ++ [AsmReset])).
Proof.
  intros back r. subst back r. rewrite xPortStartScheduler_run.
  cbn zeta. cbn [fst snd calls].
  split_and!.
  - reflexivity.
  - intros ->. reflexivity.
  - intros ->. reflexivity.
  - destruct (fst _); discriminate.
  - reflexivity.
Qed.

(** ** The allocator gate *)

(** C9: for every requested size, [pvPortMalloc] calls the scheduler's
    suspend hook, then the allocator once, then the resume hook, and
    nothing else; it returns what the allocator returned, null included,
    and leaves the world as the resume hook left it. *)
Theorem pvPortMalloc_returns_allocator_result
    (usWantedSize : Z) (e : env W) :
  let answer := ext_malloc (malloc_t usWantedSize)
                  (ext_vTaskSuspendAll (world e)) in
  let r := pvPortMalloc usWantedSize e in
  fst r = Returns (fst answer) /\
  (fst answer = 0 -> fst r = Returns 0) /\
  calls (snd r) =
    calls e ++ [CallSuspendAll; CallMalloc (malloc_t usWantedSize);
                CallResumeAll] /\
  world (snd r) = snd (ext_xTaskResumeAll (snd answer)).
Proof.
  intros answer r. subst answer r. rewrite pvPortMalloc_run.
  cbn zeta. cbn [fst snd calls world].
  split_and!; try reflexivity.
  intros ->. reflexivity.
Qed.

(** C10: [vPortFree] with a null handle returns at once: no call to the
    allocator, none to the scheduler, the world untouched.  With any other
    handle it calls the suspend hook, the allocator's free with exactly
    that handle, and the resume hook, in this order and nothing else. *)
Theorem vPortFree_null_and_non_null (pv : Z) (e : env W) :
  (pv = 0 -> vPortFree pv e = (Returns tt, e)) /\
  (pv <> 0 ->
   vPortFree pv e =
   (Returns tt,
    Env (snd (ext_xTaskResumeAll
                (ext_free pv (ext_vTaskSuspendAll (world e)))))
        (calls e ++ [CallSuspendAll; CallFree pv; CallResumeAll]))).
Proof.
  rewrite vPortFree_run. split.
  - intros ->. reflexivity.
  - intros Hpv. destruct (Z.eqb_spec pv 0); [contradiction|reflexivity].
Qed.

End PortProperties.

Lemma xPortStartScheduler_outcome_witness :
  fst (xPortStartScheduler (kernel := toy_kernel 64 false) toy_start) = TaskResumed /\
  fst (xPortStartScheduler (kernel := toy_kernel 64 true) toy_start) = Returns 1.
Proof.
  split.
  - apply (xPortStartScheduler_outcome (kernel := toy_kernel 64 false) toy_start).
    reflexivity.
  - apply (xPortStartScheduler_outcome (kernel := toy_kernel 64 true) toy_start).
    reflexivity.
Defined.

(** With a restore that lets control come back, [xPortStartScheduler] hands
    [pdTRUE] to its caller; no reset instruction is executed. *)
Lemma xPortStartScheduler_outcome_counterexample :
  let r := xPortStartScheduler (kernel := toy_kernel 64 true) toy_start in
  fst (ext_portRESTORE_CONTEXT (Kernel := toy_kernel 64 true)
         (world (snd r))) = true /\
  fst r = Returns 1 /\
  fst r <> HardwareReset /\
  AsmReset ∉ calls (snd r).
Proof.
  vm_compute. split_and!; try reflexivity; try discriminate.
  intros Hin. repeat (apply elem_of_cons in Hin as [Hin|Hin]; [discriminate|]).
  apply elem_of_nil in Hin. exact Hin.
Qed.

Lemma pvPortMalloc_returns_allocator_result_witness :
  fst (pvPortMalloc (kernel := toy_kernel 64 false) 100 toy_start) = Returns 0 /\
  calls (snd (pvPortMalloc (kernel := toy_kernel 64 false) 100 toy_start)) =
    [CallSuspendAll; CallMalloc 100; CallResumeAll].
Proof.
  destruct (pvPortMalloc_returns_allocator_result
              (kernel := toy_kernel 64 false) 100 toy_start)
    as (_ & Hnull & Hcalls & _).
  split.
  - apply Hnull. reflexivity.
  - exact Hcalls.
Defined.

Lemma vPortFree_null_and_non_null_witness :
  vPortFree (kernel := toy_kernel 64 false) 0 toy_start = (Returns tt, toy_start) /\
  calls (snd (vPortFree (kernel := toy_kernel 64 false) 17 toy_start)) =
    [CallSuspendAll; CallFree 17; CallResumeAll].
Proof.
  split.
  - apply (vPortFree_null_and_non_null (kernel := toy_kernel 64 false) 0 toy_start).
    reflexivity.
  - destruct (vPortFree_null_and_non_null
                (kernel := toy_kernel 64 false) 17 toy_start) as [_ Hfree].
    rewrite Hfree by discriminate. reflexivity.
Defined.

(** * Further properties of the code *)

(** ** The frame in memory *)

Lemma call_fst ROMSIZE scratch top pxCode pvParameters m :
  fst (call_pxPortInitialiseStack ROMSIZE scratch top pxCode pvParameters m) =
  top - Z.of_nat (length (frame_image ROMSIZE (uint8 scratch) pxCode pvParameters)).
Proof. rewrite call_pxPortInitialiseStack_eq. reflexivity. Qed.

Lemma call_stores ROMSIZE scratch top pxCode pvParameters m :
  stores (snd (call_pxPortInitialiseStack ROMSIZE scratch top pxCode
                 pvParameters m)) =
  laid top (frame_image ROMSIZE (uint8 scratch) pxCode pvParameters).
Proof.
  rewrite call_pxPortInitialiseStack_eq. cbn zeta. cbn [snd].
  rewrite lay_stores. reflexivity.
Qed.

Lemma call_ram_inside ROMSIZE scratch top pxCode pvParameters m i sv :
  frame_image ROMSIZE (uint8 scratch) pxCode pvParameters !! i = Some sv ->
  ram (snd (call_pxPortInitialiseStack ROMSIZE scratch top pxCode
              pvParameters m)) !! (top - Z.of_nat i) = Some sv.2.
Proof.
  intros Hi. rewrite call_pxPortInitialiseStack_eq. cbn zeta. cbn [snd].
  apply (lay_ram_inside _ (Stack top m []) i sv Hi).
Qed.

Lemma call_ram_outside ROMSIZE scratch top pxCode pvParameters m a :
  a <= fst (call_pxPortInitialiseStack ROMSIZE scratch top pxCode pvParameters m)
  \/ top < a ->
  ram (snd (call_pxPortInitialiseStack ROMSIZE scratch top pxCode
              pvParameters m)) !! a = m !! a.
Proof.
  rewrite call_fst, call_pxPortInitialiseStack_eq. cbn zeta. cbn [snd].
  intros Ha. apply (lay_ram_outside _ (Stack top m [])). exact Ha.
Qed.

Lemma frame_image_tail ROMSIZE S pxCode pvParameters k :
  frame_image ROMSIZE S pxCode pvParameters
    !! (length (frame_front ROMSIZE S pvParameters) + k)%nat =
  [(TOSH, high_byte pxCode); (TOSL, low_byte pxCode); (ReturnDepth, 1);
   (CriticalNesting, portNO_CRITICAL_SECTION_NESTING)] !! k.
Proof.
  rewrite frame_image_split, lookup_app_r by lia.
  f_equal. lia.
Qed.

Lemma frame_image_front_length ROMSIZE S pxCode pvParameters :
  length (frame_image ROMSIZE S pxCode pvParameters) =
  (length (frame_front ROMSIZE S pvParameters) + 4)%nat.
Proof. rewrite frame_image_split, length_app. reflexivity. Qed.

(** The two bytes of a pointer put together again. *)
Lemma bytes_recombine p : 256 * high_byte p + low_byte p = uint16 p.
Proof.
  unfold high_byte, low_byte, uint16. change 65536 with (256 * 256).
  rewrite Z.rem_mul_r by lia. lia.
Qed.

(** X1.  Reading the frame back: for a parameter and an entry address that fit
    in 16 bits, the two bytes at the top of the frame put together (first
    pushed byte high) give back the parameter, and the two bytes of the
    call/return record, at the fourth and third slot above the returned
    pointer, give back the entry address. *)
Theorem pxPortInitialiseStack_read_back
    (ROMSIZE scratch top pxCode pvParameters : Z) (m : gmap Z Z) :
  0 <= pvParameters < 65536 ->
  0 <= pxCode < 65536 ->
  let r := call_pxPortInitialiseStack ROMSIZE scratch top pxCode pvParameters m in
  exists ph pl eh el,
    ram (snd r) !! top = Some ph /\
    ram (snd r) !! (top - 1) = Some pl /\
    256 * ph + pl = pvParameters /\
    ram (snd r) !! (fst r + 4) = Some eh /\
    ram (snd r) !! (fst r + 3) = Some el /\
    256 * eh + el = pxCode.
Proof.
  intros HP HE r. subst r.
  exists (high_byte pvParameters), (low_byte pvParameters),
    (high_byte pxCode), (low_byte pxCode).
  rewrite call_fst, frame_image_front_length.
  set (n := length (frame_front ROMSIZE (uint8 scratch) pvParameters)).
  split_and!.
  - rewrite <- (Z.sub_0_r top) at 1.
    apply (call_ram_inside _ _ _ _ _ _ 0%nat (ParamHigh, _)). reflexivity.
  - apply (call_ram_inside _ _ _ _ _ _ 1%nat (ParamLow, _)). reflexivity.
  - rewrite bytes_recombine. apply Z.mod_small. exact HP.
  - replace (top - Z.of_nat (n + 4) + 4) with (top - Z.of_nat (n + 0)) by lia.
    apply (call_ram_inside _ _ _ _ _ _ _ (TOSH, _)).
    subst n. rewrite frame_image_tail. reflexivity.
  - replace (top - Z.of_nat (n + 4) + 3) with (top - Z.of_nat (n + 1)) by lia.
    apply (call_ram_inside _ _ _ _ _ _ _ (TOSL, _)).
    subst n. rewrite frame_image_tail. reflexivity.
  - rewrite bytes_recombine. apply Z.mod_small. exact HE.
Qed.

Lemma pxPortInitialiseStack_read_back_witness :
  let r := call_pxPortInitialiseStack 0x8001 7 0x0EFF 0x1234 0xBEEF ∅ in
  exists ph pl eh el,
    ram (snd r) !! 0x0EFF = Some ph /\
    ram (snd r) !! (0x0EFF - 1) = Some pl /\
    256 * ph + pl = 0xBEEF /\
    ram (snd r) !! (fst r + 4) = Some eh /\
    ram (snd r) !! (fst r + 3) = Some el /\
    256 * eh + el = 0x1234.
Proof.
  apply (pxPortInitialiseStack_read_back 0x8001 7 0x0EFF 0x1234 0xBEEF ∅); lia.
Defined.

Lemma high_byte_uint16 p p' : uint16 p = uint16 p' -> high_byte p = high_byte p'.
Proof.
  intros H. rewrite <- (code_high_byte p), <- (code_high_byte p'), H.
  reflexivity.
Qed.

Lemma low_byte_uint16 p p' : uint16 p = uint16 p' -> low_byte p = low_byte p'.
Proof.
  intros H. rewrite <- (code_low_byte p), <- (code_low_byte p'), H.
  reflexivity.
Qed.

(** X2.  The casts to [uint16_t] and the 8-bit scratch register: entry
    addresses that agree in their low 16 bits, parameters that agree in
    their low 16 bits and scratch sizes that agree in their low 8 bits give
    the same returned pointer, the same stores and the same memory.  In
    particular an entry address above 64 kB is cut to its low 16 bits, in
    the large tier too. *)
Theorem pxPortInitialiseStack_truncates
    (ROMSIZE top : Z) (m : gmap Z Z)
    (scratch scratch' pxCode pxCode' pvParameters pvParameters' : Z) :
  uint8 scratch = uint8 scratch' ->
  uint16 pxCode = uint16 pxCode' ->
  uint16 pvParameters = uint16 pvParameters' ->
  call_pxPortInitialiseStack ROMSIZE scratch top pxCode pvParameters m =
  call_pxPortInitialiseStack ROMSIZE scratch' top pxCode' pvParameters' m.
Proof.
  intros HS HE HP.
  rewrite !call_pxPortInitialiseStack_eq. cbn zeta.
  assert (Himg : frame_image ROMSIZE (uint8 scratch) pxCode pvParameters =
                 frame_image ROMSIZE (uint8 scratch') pxCode' pvParameters').
  { unfold frame_image, return_record.
    rewrite (high_byte_uint16 _ _ HE), (low_byte_uint16 _ _ HE),
      (high_byte_uint16 _ _ HP), (low_byte_uint16 _ _ HP), HS.
    reflexivity. }
  rewrite Himg. reflexivity.
Qed.

Lemma pxPortInitialiseStack_truncates_witness :
  call_pxPortInitialiseStack 0x8001 7 0x0EFF 0x12345 0xBEEF ∅ =
  call_pxPortInitialiseStack 0x8001 (7 + 256) 0x0EFF 0x2345 0xBEEF ∅.
Proof.
  apply pxPortInitialiseStack_truncates; reflexivity.
Defined.

(** X3.  The scratch padding: the [S] slots right below the register block hold
    zero after the call, a store goes to the scratch region exactly when
    its address lies in these slots, and with [S = 0] there is no scratch
    store at all. *)
Theorem pxPortInitialiseStack_scratch_region
    (ROMSIZE S top pxCode pvParameters : Z) (m : gmap Z Z) :
  0 <= S < 256 ->
  let r := call_pxPortInitialiseStack ROMSIZE S top pxCode pvParameters m in
  let base := top - 2 - portSTACK_FSR_BYTES ROMSIZE in
  (forall a, base - S < a <= base -> ram (snd r) !! a = Some 0) /\
  (forall x, x ∈ stores (snd r) ->
     st_slot x = Scratch <-> base - S < st_addr x <= base) /\
  (S = 0 -> Scratch ∉ slots_stored ROMSIZE S top pxCode pvParameters m).
Proof.
  intros HS r base. subst r base.
  set (A := [(ParamHigh, high_byte pvParameters);
             (ParamLow, low_byte pvParameters)] ++ register_block ROMSIZE).
  set (B := return_record ROMSIZE pxCode ++
            [(ReturnDepth, 1);
             (CriticalNesting, portNO_CRITICAL_SECTION_NESTING)]).
  assert (Himg : frame_image ROMSIZE (uint8 S) pxCode pvParameters =
                 A ++ replicate (Z.to_nat S) (Scratch, 0) ++ B).
  { rewrite (uint8_small S HS). unfold frame_image, A, B.
    rewrite <- !app_assoc. reflexivity. }
  assert (HlenA : Z.of_nat (length A) = 2 + portSTACK_FSR_BYTES ROMSIZE).
  { unfold A. rewrite length_app, Nat2Z.inj_add, register_block_length.
    reflexivity. }
  assert (HA : Forall (fun sv => sv.1 <> Scratch) A).
  { unfold A, register_block. destruct (large_rom ROMSIZE);
      repeat (constructor; [discriminate|]); constructor. }
  assert (HB : Forall (fun sv => sv.1 <> Scratch) B).
  { unfold B, return_record. destruct (large_rom ROMSIZE);
      repeat (constructor; [discriminate|]); constructor. }
  split_and!.
  - intros a Ha.
    replace a with (top - Z.of_nat (length A + Z.to_nat (top - 2
                      - portSTACK_FSR_BYTES ROMSIZE - a))) by lia.
    apply (call_ram_inside _ _ _ _ _ _ _ (Scratch, 0)).
    rewrite Himg, lookup_app_r by lia.
    rewrite lookup_app_l by (rewrite length_replicate; lia).
    apply lookup_replicate_2. lia.
  - intros x Hx. rewrite call_stores, Himg in Hx.
    apply list_elem_of_lookup in Hx as [i Hi].
    rewrite laid_lookup in Hi.
    destruct (decide (i < length A)%nat) as [HiA|HiA].
    + rewrite lookup_app_l in Hi by lia.
      destruct (A !! i) as [sv|] eqn:Hsv; [|discriminate].
      injection Hi as <-. cbn [st_slot st_addr].
      split; [|lia].
      intros Hs. exfalso.
      exact (proj1 (Forall_lookup _ _) HA i sv Hsv Hs).
    + rewrite lookup_app_r in Hi by lia.
      destruct (decide (i - length A < Z.to_nat S)%nat) as [HiS|HiS].
      * rewrite lookup_app_l in Hi by (rewrite length_replicate; lia).
        rewrite lookup_replicate_2 in Hi by lia.
        injection Hi as <-. cbn [st_slot st_addr fst snd].
        split; [lia|reflexivity].
      * rewrite lookup_app_r in Hi by (rewrite length_replicate; lia).
        rewrite length_replicate in Hi.
        destruct (B !! _) as [sv|] eqn:Hsv; [|discriminate].
        injection Hi as <-. cbn [st_slot st_addr].
        split; [|lia].
        intros Hs. exfalso.
        exact (proj1 (Forall_lookup _ _) HB _ sv Hsv Hs).
  - intros ->. rewrite slots_stored_eq, Himg. simpl replicate.
    rewrite app_nil_l, fmap_app. apply not_elem_of_app. split.
    + intros Hin. apply list_elem_of_fmap in Hin as (sv & Hs & Hin).
      exact (proj1 (Forall_forall _ _) HA sv Hin (eq_sym Hs)).
    + intros Hin. apply list_elem_of_fmap in Hin as (sv & Hs & Hin).
      exact (proj1 (Forall_forall _ _) HB sv Hin (eq_sym Hs)).
Qed.

Lemma pxPortInitialiseStack_scratch_region_witness :
  ram (snd (call_pxPortInitialiseStack 0x8000 3 100 0x1234 0xBEEF ∅)) !! 84
  = Some 0.
Proof.
  assert (HS : 0 <= 3 < 256) by lia.
  destruct (pxPortInitialiseStack_scratch_region 0x8000 3 100 0x1234 0xBEEF ∅ HS)
    as [Hzero _].
  apply Hzero. vm_compute. split; [reflexivity|discriminate].
Defined.

(** X4.  Two frames laid one after the other: a second frame built at the
    pointer the first call returned starts in the slot right below the
    first frame and changes nothing at or above that frame's lowest byte,
    so the first frame reads back as it was built; the pointer moves down
    with each call. *)
Theorem pxPortInitialiseStack_stacked_frames
    (ROMSIZE scratch top pxCode1 pvParameters1 pxCode2 pvParameters2 : Z)
    (m : gmap Z Z) :
  let r1 := call_pxPortInitialiseStack ROMSIZE scratch top
              pxCode1 pvParameters1 m in
  let r2 := call_pxPortInitialiseStack ROMSIZE scratch (fst r1)
              pxCode2 pvParameters2 (ram (snd r1)) in
  fst r2 < fst r1 < top /\
  (forall x, x ∈ stores (snd r2) -> fst r2 < st_addr x <= fst r1) /\
  (forall a, fst r1 < a -> ram (snd r2) !! a = ram (snd r1) !! a) /\
  (forall i sv,
     frame_image ROMSIZE (uint8 scratch) pxCode1 pvParameters1 !! i = Some sv ->
     ram (snd r2) !! (top - Z.of_nat i) = Some sv.2).
Proof.
  intros r1 r2.
  assert (H1 : fst r1 < top).
  { subst r1. rewrite call_fst, frame_image_front_length. lia. }
  assert (H2 : fst r2 < fst r1).
  { subst r2. rewrite call_fst, frame_image_front_length. lia. }
  assert (Hout : forall a, fst r1 < a -> ram (snd r2) !! a = ram (snd r1) !! a).
  { intros a Ha. subst r2. apply call_ram_outside. right. exact Ha. }
  split_and!.
  - exact H2.
  - exact H1.
  - intros x Hx.
    assert (Ha : st_addr x ∈ (st_addr <$> stores (snd r2)))
      by (apply list_elem_of_fmap_2; exact Hx).
    subst r2. rewrite call_stores in Ha. apply laid_addrs_elem in Ha.
    rewrite call_fst. lia.
  - exact Hout.
  - intros i sv Hi.
    assert (Hlt : (i < length (frame_image ROMSIZE (uint8 scratch)
                                  pxCode1 pvParameters1))%nat)
      by (eapply lookup_lt_Some; exact Hi).
    rewrite Hout.
    + subst r1. apply call_ram_inside. exact Hi.
    + subst r1. rewrite call_fst. lia.
Qed.

(** X5.  The function writes and never reads: the returned pointer and the
    stores made (address, slot, value) are the same whatever the memory
    held before, and so is the content of every slot of the frame after the
    call. *)
Theorem pxPortInitialiseStack_ignores_old_content
    (ROMSIZE scratch top pxCode pvParameters : Z) (m m' : gmap Z Z) :
  let r := call_pxPortInitialiseStack ROMSIZE scratch top pxCode pvParameters m in
  let r' := call_pxPortInitialiseStack ROMSIZE scratch top pxCode pvParameters m' in
  fst r = fst r' /\
  stores (snd r) = stores (snd r') /\
  (forall a, fst r < a <= top -> ram (snd r) !! a = ram (snd r') !! a) /\
  (forall a, fst r < a <= top -> is_Some (ram (snd r) !! a)).
Proof.
  intros r r'. subst r r'.
  rewrite !call_fst, !call_stores.
  set (img := frame_image ROMSIZE (uint8 scratch) pxCode pvParameters).
  assert (Hin : forall (mm : gmap Z Z) a,
            top - Z.of_nat (length img) < a <= top ->
            exists sv,
              img !! Z.to_nat (top - a) = Some sv /\
              ram (snd (call_pxPortInitialiseStack ROMSIZE scratch top pxCode
                          pvParameters mm)) !! a = Some sv.2).
  { intros mm a Ha.
    destruct (lookup_lt_is_Some_2 img (Z.to_nat (top - a))) as [sv Hsv]; [lia|].
    exists sv. split; [exact Hsv|].
    replace a with (top - Z.of_nat (Z.to_nat (top - a))) at 1 by lia.
    apply call_ram_inside. exact Hsv. }
  split_and!; try reflexivity.
  - intros a Ha.
    destruct (Hin m a Ha) as (sv & Hsv & ->).
    destruct (Hin m' a Ha) as (sv' & Hsv' & ->).
    congruence.
  - intros a Ha. destruct (Hin m a Ha) as (sv & _ & ->). eauto.
Qed.

(** X6.  Bounds on the frame, for any value of the link-time scratch constant:
    the frame takes at least 19 and at most 277 bytes (255 bytes of scratch
    in the large tier), and the returned pointer lies that far below the
    initial one. *)
Theorem pxPortInitialiseStack_frame_bounds
    (ROMSIZE scratch top pxCode pvParameters : Z) (m : gmap Z Z) :
  let r := call_pxPortInitialiseStack ROMSIZE scratch top pxCode pvParameters m in
  19 <= frame_bytes ROMSIZE scratch top pxCode pvParameters m <= 277 /\
  top - 277 <= fst r <= top - 19 /\
  frame_bytes ROMSIZE scratch top pxCode pvParameters m = top - fst r.
Proof.
  intros r. subst r. unfold frame_bytes.
  rewrite call_fst, call_stores, laid_length.
  pose proof (frame_image_length ROMSIZE (uint8 scratch) pxCode pvParameters) as Hl.
  assert (Hs : 0 <= uint8 scratch < 256)
    by (unfold uint8; apply Z.mod_pos_bound; lia).
  specialize (Hl (proj1 Hs)).
  unfold portSTACK_FSR_BYTES, portSTACK_CALLRETURN_ENTRY_SIZE in Hl.
  destruct (large_rom ROMSIZE); lia.
Qed.

(** ** The two tiers side by side *)

Lemma bytes_stored_eq ROMSIZE scratch top pxCode pvParameters m :
  bytes_stored ROMSIZE scratch top pxCode pvParameters m =
  frame_image ROMSIZE (uint8 scratch) pxCode pvParameters.
Proof.
  unfold bytes_stored. rewrite call_stores. unfold laid.
  rewrite fmap_imap.
  rewrite (imap_ext _ (const id)) by (intros i [s v] _; reflexivity).
  rewrite imap_const. apply list_fmap_id.
Qed.

Lemma filter_replicate {A} (f : A -> bool) (x : A) n :
  List.filter f (replicate n x) = if f x then replicate n x else [].
Proof.
  induction n as [|n IH]; simpl.
  - destruct (f x); reflexivity.
  - rewrite IH. destruct (f x); reflexivity.
Qed.

(** X7.  The large tier is the small tier plus three slots: leaving the stores
    to TBLPTRU, PCLATU and TOSU out of the large tier's frame gives the
    small tier's frame, slot by slot and value by value in the same order;
    the three extra stores are, in this order, TBLPTRU = 0, PCLATU = 0xEE
    and TOSU = 0; and the large tier's returned pointer is three slots
    lower. *)
Theorem pxPortInitialiseStack_tiers
    (SMALL LARGE scratch top pxCode pvParameters : Z) (m : gmap Z Z) :
  large_rom SMALL = false ->
  large_rom LARGE = true ->
  let small := bytes_stored SMALL scratch top pxCode pvParameters m in
  let large := bytes_stored LARGE scratch top pxCode pvParameters m in
  List.filter (fun sv => negb (large_tier_only sv.1)) large = small /\
  List.filter (fun sv => large_tier_only sv.1) large =
    [(TBLPTRU, 0); (PCLATU, 0xEE); (TOSU, 0)] /\
  List.filter (fun sv => large_tier_only sv.1) small = [] /\
  fst (call_pxPortInitialiseStack LARGE scratch top pxCode pvParameters m) =
  fst (call_pxPortInitialiseStack SMALL scratch top pxCode pvParameters m) - 3.
Proof.
  intros Hs Hl small large. subst small large.
  rewrite !bytes_stored_eq, !call_fst.
  rewrite (frame_image_large _ _ _ _ Hl), (frame_image_small _ _ _ _ Hs).
  rewrite !List.filter_app, !filter_replicate. cbn [fst large_tier_only negb].
  split_and!.
  - reflexivity.
  - reflexivity.
  - reflexivity.
  - rewrite !length_app, !length_replicate. cbn [length]. lia.
Qed.

Lemma pxPortInitialiseStack_tiers_witness :
  List.filter (fun sv => negb (large_tier_only sv.1))
    (bytes_stored 0x8001 7 0x0EFF 0x1234 0xBEEF ∅)
  = bytes_stored 0x8000 7 0x0EFF 0x1234 0xBEEF ∅.
Proof.
  assert (Hs : large_rom 0x8000 = false) by reflexivity.
  assert (Hl : large_rom 0x8001 = true) by reflexivity.
  destruct (pxPortInitialiseStack_tiers
              0x8000 0x8001 7 0x0EFF 0x1234 0xBEEF ∅ Hs Hl) as [H _].
  exact H.
Defined.

(** ** The minimal stack size over successive calls *)

Lemma land_0xFF00 var :
  0 <= var < 65536 -> Z.land var 0xFF00 = 256 * (var / 256).
Proof.
  intros Hv.
  change 0xFF00 with (Z.land (Z.ones 16) (Z.lnot (Z.ones 8))).
  rewrite Z.land_assoc, Z.land_ones, Z.mod_small by lia.
  rewrite <- Z.ldiff_land, Z.ldiff_ones_r by lia.
  rewrite Z.shiftl_mul_pow2, Z.shiftr_div_pow2 by lia.
  change (2 ^ 8) with 256. lia.
Qed.

Lemma lor_low_byte q W :
  0 <= W < 256 -> Z.lor (256 * q) W = 256 * q + W.
Proof.
  intros HW.
  assert (Hland : Z.land (256 * q) W = 0).
  { apply Z.bits_inj'. intros n Hn.
    rewrite Z.land_spec, Z.bits_0.
    destruct (Z.lt_ge_cases n 8) as [Hlt|Hge].
    - replace (256 * q) with (Z.shiftl q 8)
        by (rewrite Z.shiftl_mul_pow2 by lia; change (2 ^ 8) with 256; lia).
      rewrite Z.shiftl_spec_low by lia. reflexivity.
    - rewrite <- (Z.mod_small W (2 ^ 8)) by (change (2 ^ 8) with 256; lia).
      rewrite Z.mod_pow2_bits_high by lia. apply andb_false_r. }
  rewrite <- Z.lxor_lor by exact Hland.
  symmetry. apply Z.add_nocarry_lxor. exact Hland.
Qed.

(** What [movwf] does to a 16-bit variable: the high byte stays, the low
    byte becomes the working register. *)
Lemma movwf_low_byte_eq W var :
  0 <= W < 256 -> 0 <= var < 65536 ->
  movwf_low_byte W var = 256 * (var / 256) + W.
Proof.
  intros HW Hv. unfold movwf_low_byte.
  rewrite land_0xFF00 by exact Hv. apply lor_low_byte. exact HW.
Qed.

Lemma usPortCALCULATE_MINIMAL_STACK_SIZE_fst ROMSIZE S g :
  0 <= S < 256 ->
  0 <= usCalcMinStackSize g < 65536 ->
  fst (usPortCALCULATE_MINIMAL_STACK_SIZE ROMSIZE S g) =
  uint16 (256 * (usCalcMinStackSize g / 256) + spec_minimal_stack_size ROMSIZE S).
Proof.
  intros HS Hg.
  unfold usPortCALCULATE_MINIMAL_STACK_SIZE.
  cbn [fst usCalcMinStackSize set_usCalcMinStackSize].
  rewrite (uint8_small S HS), movwf_low_byte_eq by assumption.
  f_equal. unfold spec_minimal_stack_size,
    portSTACK_MINIMAL_CALLRETURN_DEPTH, portSTACK_OTHER_BYTES. lia.
Qed.

Lemma spec_minimal_stack_size_range ROMSIZE S :
  0 <= S < 256 -> 53 <= spec_minimal_stack_size ROMSIZE S <= 320.
Proof.
  intros HS. unfold spec_minimal_stack_size, portSTACK_FSR_BYTES,
    portSTACK_CALLRETURN_ENTRY_SIZE.
  destruct (large_rom ROMSIZE); lia.
Qed.

(** X8.  In every state the [uint16_t] variable can be in, the function returns
    the scratch size plus the tier's constants plus 256 times the high byte
    the variable had on entry, cut to 16 bits; the result is again a 16-bit
    value.  The low byte the variable had on entry has no influence. *)
Theorem usPortCALCULATE_MINIMAL_STACK_SIZE_value
    (ROMSIZE S : Z) (g : machine) :
  0 <= S < 256 ->
  0 <= usCalcMinStackSize g < 65536 ->
  let r := fst (usPortCALCULATE_MINIMAL_STACK_SIZE ROMSIZE S g) in
  r = uint16 (256 * (usCalcMinStackSize g / 256)
              + spec_minimal_stack_size ROMSIZE S) /\
  0 <= r < 65536.
Proof.
  intros HS Hg r. subst r.
  rewrite usPortCALCULATE_MINIMAL_STACK_SIZE_fst by assumption.
  split; [reflexivity|].
  unfold uint16. apply Z.mod_pos_bound. lia.
Qed.

Lemma usPortCALCULATE_MINIMAL_STACK_SIZE_value_witness :
  fst (usPortCALCULATE_MINIMAL_STACK_SIZE 0x8001 7 (Machine 0x0234 0 false))
  = uint16 (256 * (0x0234 / 256) + spec_minimal_stack_size 0x8001 7).
Proof.
  apply (usPortCALCULATE_MINIMAL_STACK_SIZE_value 0x8001 7
           (Machine 0x0234 0 false)); simpl; lia.
Defined.

Lemma after_calls_high_byte ROMSIZE S gie (k : nat) :
  0 <= S < 256 ->
  256 <= spec_minimal_stack_size ROMSIZE S ->
  (k <= 255)%nat ->
  0 <= usCalcMinStackSize (after_calls ROMSIZE S k (startup gie)) < 65536 /\
  usCalcMinStackSize (after_calls ROMSIZE S k (startup gie)) / 256 = Z.of_nat k.
Proof.
  intros HS Hm. pose proof (spec_minimal_stack_size_range ROMSIZE S HS) as Hr.
  induction k as [|k IH]; intros Hk.
  - simpl. split; [lia|reflexivity].
  - destruct IH as [Hg Hq]; [lia|].
    rewrite after_calls_S.
    change (usCalcMinStackSize (snd ?r)) with (fst r).
    rewrite usPortCALCULATE_MINIMAL_STACK_SIZE_fst, Hq by assumption.
    unfold uint16. rewrite Z.mod_small by lia.
    split; [lia|].
    rewrite Z.mul_comm, Z.div_add_l by lia.
    replace (spec_minimal_stack_size ROMSIZE S / 256) with 1; [lia|].
    apply Z.div_unique with (r := spec_minimal_stack_size ROMSIZE S - 256);
      lia.
Qed.

Lemma after_calls_next_result ROMSIZE S gie (k : nat) :
  0 <= S < 256 ->
  256 <= spec_minimal_stack_size ROMSIZE S ->
  (k < 255)%nat ->
  fst (usPortCALCULATE_MINIMAL_STACK_SIZE ROMSIZE S
         (after_calls ROMSIZE S k (startup gie)))
  = spec_minimal_stack_size ROMSIZE S + 256 * Z.of_nat k.
Proof.
  intros HS Hm Hk.
  pose proof (spec_minimal_stack_size_range ROMSIZE S HS) as Hr.
  destruct (after_calls_high_byte ROMSIZE S gie k HS Hm) as [Hg Hq]; [lia|].
  rewrite usPortCALCULATE_MINIMAL_STACK_SIZE_fst, Hq by assumption.
  unfold uint16. rewrite Z.mod_small by lia. lia.
Qed.

(** X9.  The drift of the returned size: when the scratch size and the tier's
    constants add up to 256 or more, the call made after [k] earlier calls
    since startup returns the size formula plus 256 times [k], for every
    [k] below 255; so the results of successive calls are all different. *)
Theorem usPortCALCULATE_MINIMAL_STACK_SIZE_drift
    (ROMSIZE S : Z) (gie : bool) (k : nat) :
  0 <= S < 256 ->
  256 <= spec_minimal_stack_size ROMSIZE S ->
  (k < 255)%nat ->
  let result j := fst (usPortCALCULATE_MINIMAL_STACK_SIZE ROMSIZE S
                         (after_calls ROMSIZE S j (startup gie))) in
  result k = spec_minimal_stack_size ROMSIZE S + 256 * Z.of_nat k /\
  (forall j, (j < k)%nat -> result j < result k).
Proof.
  intros HS Hm Hk result. subst result. cbn beta. split.
  - apply after_calls_next_result; assumption.
  - intros j Hj. rewrite !after_calls_next_result by (assumption || lia). lia.
Qed.

Lemma usPortCALCULATE_MINIMAL_STACK_SIZE_drift_witness :
  fst (usPortCALCULATE_MINIMAL_STACK_SIZE 0x8001 200
         (after_calls 0x8001 200 3 (startup false)))
  = spec_minimal_stack_size 0x8001 200 + 256 * Z.of_nat 3.
Proof.
  apply (usPortCALCULATE_MINIMAL_STACK_SIZE_drift 0x8001 200 false 3).
  - lia.
  - vm_compute. discriminate.
  - lia.
Defined.

(** X10.  When the returned size is stable: after startup, the second call
    returns what the first call returned exactly when the scratch size and
    the tier's constants add up to less than 256, that is for a scratch
    size up to 202 bytes in the small tier and up to 190 bytes in the large
    tier. *)
Theorem usPortCALCULATE_MINIMAL_STACK_SIZE_stable_iff
    (ROMSIZE S : Z) (gie : bool) :
  0 <= S < 256 ->
  let first := usPortCALCULATE_MINIMAL_STACK_SIZE ROMSIZE S (startup gie) in
  let second := usPortCALCULATE_MINIMAL_STACK_SIZE ROMSIZE S (snd first) in
  (fst second = fst first <-> spec_minimal_stack_size ROMSIZE S < 256) /\
  (spec_minimal_stack_size ROMSIZE S < 256 <->
   S <= (if large_rom ROMSIZE then 190 else 202)).
Proof.
  intros HS first second. subst first second. split.
  - assert (H1 : fst (usPortCALCULATE_MINIMAL_STACK_SIZE ROMSIZE S (startup gie))
                 = spec_minimal_stack_size ROMSIZE S).
    { rewrite usPortCALCULATE_MINIMAL_STACK_SIZE_high_byte_clear;
        [reflexivity|exact HS|simpl; lia]. }
    split.
    + intros Heq.
      destruct (Z.lt_ge_cases (spec_minimal_stack_size ROMSIZE S) 256)
        as [Hlt|Hge]; [exact Hlt|exfalso].
      pose proof (after_calls_next_result ROMSIZE S gie 1 HS) as Hd.
      change (after_calls ROMSIZE S 1 (startup gie))
        with (snd (usPortCALCULATE_MINIMAL_STACK_SIZE ROMSIZE S (startup gie)))
        in Hd.
      rewrite Hd in Heq by lia. lia.
    + intros Hlt. rewrite H1.
      rewrite usPortCALCULATE_MINIMAL_STACK_SIZE_high_byte_clear;
        [reflexivity|exact HS|].
      change (usCalcMinStackSize (snd ?r)) with (fst r). rewrite H1.
      pose proof (spec_minimal_stack_size_range ROMSIZE S HS). lia.
  - unfold spec_minimal_stack_size, portSTACK_FSR_BYTES,
      portSTACK_CALLRETURN_ENTRY_SIZE.
    destruct (large_rom ROMSIZE); lia.
Qed.

Lemma usPortCALCULATE_MINIMAL_STACK_SIZE_stable_iff_witness :
  fst (usPortCALCULATE_MINIMAL_STACK_SIZE 0x8000 202
         (snd (usPortCALCULATE_MINIMAL_STACK_SIZE 0x8000 202 (startup false))))
  = fst (usPortCALCULATE_MINIMAL_STACK_SIZE 0x8000 202 (startup false)).
Proof.
  assert (HS : 0 <= 202 < 256) by lia.
  destruct (usPortCALCULATE_MINIMAL_STACK_SIZE_stable_iff 0x8000 202 false HS)
    as [Hiff _].
  apply Hiff. vm_compute. reflexivity.
Defined.

(** X11.  What the returned size leaves free: while the high byte of
    [usCalcMinStackSize] is clear on entry, the size returned exceeds the
    frame that [pxPortInitialiseStack] builds with the same scratch size by
    16 bytes plus nine call/return records of the tier, that is by 34 bytes
    in the small tier and by 43 bytes in the large one, whatever the
    scratch size. *)
Theorem returned_size_slack
    (ROMSIZE S top pxCode pvParameters : Z) (m : gmap Z Z) (g : machine) :
  0 <= S < 256 ->
  0 <= usCalcMinStackSize g < 256 ->
  let size := fst (usPortCALCULATE_MINIMAL_STACK_SIZE ROMSIZE S g) in
  let frame := frame_bytes ROMSIZE S top pxCode pvParameters m in
  size - frame = 16 + 9 * portSTACK_CALLRETURN_ENTRY_SIZE ROMSIZE /\
  size - frame = (if large_rom ROMSIZE then 43 else 34).
Proof.
  intros HS Hg size frame. subst size frame.
  rewrite usPortCALCULATE_MINIMAL_STACK_SIZE_high_byte_clear by assumption.
  rewrite frame_bytes_eq by assumption. cbn [fst].
  unfold spec_minimal_stack_size, portSTACK_FSR_BYTES,
    portSTACK_CALLRETURN_ENTRY_SIZE.
  destruct (large_rom ROMSIZE); lia.
Qed.

Lemma returned_size_slack_witness :
  fst (usPortCALCULATE_MINIMAL_STACK_SIZE 0x8001 7 (startup false))
  - frame_bytes 0x8001 7 0x0EFF 0x1234 0xBEEF ∅ = 43.
Proof.
  assert (HS : 0 <= 7 < 256) by lia.
  assert (Hg : 0 <= usCalcMinStackSize (startup false) < 256) by (simpl; lia).
  destruct (returned_size_slack 0x8001 7 0x0EFF 0x1234 0xBEEF ∅
              (startup false) HS Hg) as [_ H43].
  exact H43.
Defined.

(** ** Sequences of heap requests through the gate *)

Lemma gate_accepts_app s l1 l2 :
  gate_accepts s l1 = true ->
  gate_accepts GateIdle l2 = true ->
  gate_accepts s (l1 ++ l2) = true.
Proof.
  revert s. induction l1 as [|c l1 IH]; intros s H1 H2.
  - destruct s; try discriminate. exact H2.
  - simpl in *. destruct (gate_next s c) as [s'|]; [|discriminate].
    apply IH; assumption.
Qed.

Section RequestProperties.
Context {W : Type} {kernel : Kernel W}.

Lemma serve_run (rq : heap_request) (e : env W) :
  exists w new,
    serve rq e = (Returns tt, Env w (calls e ++ new)) /\
    gate_accepts GateIdle new = true /\
    length new = (if reaches_allocator rq then 3 else 0)%nat.
Proof.
  destruct rq as [n|pv].
  - exists (snd (ext_xTaskResumeAll
                   (snd (ext_malloc (malloc_t n)
                           (ext_vTaskSuspendAll (world e)))))),
      [CallSuspendAll; CallMalloc (malloc_t n); CallResumeAll].
    split; [|split; reflexivity].
    unfold serve, mbind, K_bind. rewrite pvPortMalloc_run.
    cbv beta iota zeta. reflexivity.
  - unfold serve. rewrite vPortFree_run. cbn [reaches_allocator].
    destruct (pv =? 0); cbn [negb].
    + exists (world e), []. rewrite app_nil_r. destruct e.
      split; [|split]; reflexivity.
    + exists (snd (ext_xTaskResumeAll
                     (ext_free pv (ext_vTaskSuspendAll (world e))))),
        [CallSuspendAll; CallFree pv; CallResumeAll].
      split; [|split]; reflexivity.
Qed.

Lemma serve_all_run (rqs : list heap_request) : forall e : env W,
  exists w new,
    serve_all rqs e = (Returns tt, Env w (calls e ++ new)) /\
    gate_accepts GateIdle new = true /\
    length new = (3 * length (List.filter reaches_allocator rqs))%nat.
Proof.
  induction rqs as [|rq rqs IH]; intros e.
  - exists (world e), []. rewrite app_nil_r. destruct e.
    split_and!; reflexivity.
  - destruct (serve_run rq e) as (w1 & new1 & Hrun1 & Hacc1 & Hlen1).
    destruct (IH (Env w1 (calls e ++ new1))) as (w2 & new2 & Hrun2 & Hacc2 & Hlen2).
    exists w2, (new1 ++ new2). split_and!.
    + cbn [serve_all]. unfold mbind, K_bind at 1. rewrite Hrun1, Hrun2.
      cbn [calls]. rewrite app_assoc. reflexivity.
    + apply gate_accepts_app; assumption.
    + rewrite length_app, Hlen1, Hlen2. cbn [List.filter].
      destruct (reaches_allocator rq); cbn [length]; lia.
Qed.

(** X12.  The gate over any sequence of requests: whatever allocations and frees
    the tasks ask for, in whatever order, and whatever the allocator and
    the scheduler do, every call to the allocator is made between a suspend
    and the matching resume, one allocator call per suspension, with the
    scheduler resumed at the end; a request that reaches the allocator
    makes three calls and a free of a null handle makes none; and every
    request comes back to its caller. *)
Theorem gate_discipline (rqs : list heap_request) (e : env W) :
  let r := serve_all rqs e in
  fst r = Returns tt /\
  exists new,
    calls (snd r) = calls e ++ new /\
    gate_accepts GateIdle new = true /\
    length new = (3 * length (List.filter reaches_allocator rqs))%nat.
Proof.
  intros r. subst r.
  destruct (serve_all_run rqs e) as (w & new & -> & Hacc & Hlen).
  split; [reflexivity|]. exists new. split_and!; [reflexivity|assumption..].
Qed.

(** X13.  Freeing what an allocation returned: after a failed allocation the free
    is a no-op, so the scheduler is suspended and resumed once and the
    allocator called once; after a successful one the scheduler is
    suspended and resumed a second time around the allocator's free of
    exactly the handle it returned. *)
Theorem malloc_then_free_calls (usWantedSize : Z) (e : env W) :
  let answer := ext_malloc (malloc_t usWantedSize)
                  (ext_vTaskSuspendAll (world e)) in
  let r := malloc_then_free usWantedSize e in
  fst r = Returns tt /\
  (fst answer = 0 ->
   calls (snd r) =
     calls e ++ [CallSuspendAll; CallMalloc (malloc_t usWantedSize);
                 CallResumeAll] /\
   world (snd r) = snd (ext_xTaskResumeAll (snd answer))) /\
  (fst answer <> 0 ->
   calls (snd r) =
     calls e ++ [CallSuspendAll; CallMalloc (malloc_t usWantedSize);
                 CallResumeAll;
                 CallSuspendAll; CallFree (fst answer); CallResumeAll]).
Proof.
  intros answer r. subst answer r.
  unfold malloc_then_free, mbind, K_bind.
  rewrite pvPortMalloc_run. cbv beta iota zeta. rewrite vPortFree_run.
  destruct (Z.eqb_spec (fst (ext_malloc (malloc_t usWantedSize)
                               (ext_vTaskSuspendAll (world e)))) 0)
    as [Hnull|Hptr].
  - split_and!; [reflexivity| |intros Hne; contradiction].
    intros _. split; reflexivity.
  - split_and!; [reflexivity|intros Heq; contradiction|].
    intros _. cbn [snd calls]. rewrite <- app_assoc. reflexivity.
Qed.

End RequestProperties.

Lemma malloc_then_free_calls_witness :
  calls (snd (malloc_then_free (kernel := toy_kernel 64 false) 100 toy_start))
  = [CallSuspendAll; CallMalloc 100; CallResumeAll] /\
  calls (snd (malloc_then_free (kernel := toy_kernel 64 false) 10 toy_start))
  = [CallSuspendAll; CallMalloc 10; CallResumeAll;
     CallSuspendAll; CallFree 1; CallResumeAll].
Proof.
  split.
  - destruct (malloc_then_free_calls (kernel := toy_kernel 64 false) 100 toy_start)
      as (_ & Hnull & _).
    destruct Hnull as [Hcalls _]; [reflexivity|exact Hcalls].
  - destruct (malloc_then_free_calls (kernel := toy_kernel 64 false) 10 toy_start)
      as (_ & _ & Hptr).
    apply Hptr. discriminate.
Defined.

Example gate_discipline_run :
  calls (snd (serve_all (kernel := toy_kernel 64 false)
                [RequestMalloc 10; RequestFree 0; RequestFree 1; RequestMalloc 100]
                toy_start))
  = [CallSuspendAll; CallMalloc 10; CallResumeAll;
     CallSuspendAll; CallFree 1; CallResumeAll;
     CallSuspendAll; CallMalloc 100; CallResumeAll].
Proof. reflexivity. Qed.
